(** * The particle example of [python/classes.ipynb]

    A shallow embedding of the code cells of the notebook: the free
    function [calc_mass_simple], the dict-based particles ([calc_mass],
    [make_particle], [initialize_particle]) and the classes
    [SimpleParticle], [Particle], [VerboseParticle] and [BetterParticle].

    Data model.
    - Python numbers are [int] (unbounded, modelled by [Z]) and [float]
      (IEEE binary64, modelled by Rocq's primitive floats).  The one
      operation that binary64 does not fix is [x ** 2] on a [float], which
      CPython hands to [pow] of the C library: that library is a parameter
      ([Libm]) of the definitions and theorems on the mass.  The notebook
      uses both ([10], [41.234227]).  [None] and the function object
      [calc_mass] also occur as dict values and are part of [value];
      other Python objects (strings, arrays, nested particles) are outside
      the model.
    - A raised exception is modelled by its class ([exn]).
    - Dicts and instance [__dict__]s are finite maps from attribute names
      to values.  Instances live in a heap (a list indexed by location);
      a method is a state-passing function over that heap. *)

From Stdlib Require Import ZArith QArith Uint63 Floats Lia HexadecimalString.
From stdpp Require Import base option list gmap strings pretty.

Local Open Scope Z_scope.
Set Warnings "-inexact-float".

(** ** Exceptions and results *)

Inductive exn :=
  | TypeError
  | OverflowError
  | KeyError
  | AttributeError
  | InvalidReference.
(* [InvalidReference] is not a Python exception: it is the model's answer
   to a location outside of the heap, which no Python program produces. *)

Inductive result (A : Type) :=
  | Ok (a : A)
  | Raise (e : exn).
Arguments Ok {A} a.
Arguments Raise {A} e.

#[global] Instance result_ret : MRet result := @Ok.
#[global] Instance result_bind : MBind result := λ A B f r,
  match r with
  | Ok a => f a
  | Raise e => Raise e
  end.
#[global] Instance result_fmap : FMap result := λ A B f r,
  match r with
  | Ok a => Ok (f a)
  | Raise e => Raise e
  end.

(** The value a computation returned, if it returned. *)
Definition returned {A} (r : result A) : option A :=
  match r with
  | Ok a => Some a
  | Raise _ => None
  end.

(** ** Values *)

(** Function objects that the notebook stores in a dict. *)
Inductive func := f_calc_mass.

Inductive value :=
  | VInt (n : Z)
  | VFloat (x : float)
  | VNone
  | VFunc (f : func).

Definition is_nan_value (v : value) : bool :=
  match v with
  | VFloat x => is_nan x
  | _ => false
  end.

(** ** Arithmetic of Python numbers *)

(** The binary64 number nearest to an integer (ties to even); [infinity]
    when the integer is beyond the range of binary64. *)
Definition Z2float (n : Z) : float :=
  SF2Prim (binary_normalize prec emax n 0 false).

(** [float(n)] for an [int]: CPython's [PyLong_AsDouble] rounds correctly
    and raises [OverflowError] ("int too large to convert to float"). *)
Definition int_to_float (n : Z) : result float :=
  let x := Z2float n in
  if is_infinity x then Raise OverflowError else Ok x.

(** [int op int] is exact; as soon as one operand is a [float] the other
    one is converted and the operation is the binary64 one. *)
Definition arith (iop : Z → Z → Z) (fop : float → float → float)
    (a b : value) : result value :=
  match a, b with
  | VInt m, VInt n => Ok (VInt (iop m n))
  | VInt m, VFloat y => x ← int_to_float m; Ok (VFloat (fop x y))
  | VFloat x, VInt n => y ← int_to_float n; Ok (VFloat (fop x y))
  | VFloat x, VFloat y => Ok (VFloat (fop x y))
  | _, _ => Raise TypeError
  end.

(** [a + b] *)
Definition py_add : value → value → result value := arith Z.add PrimFloat.add.

(** [a - b] *)
Definition py_sub : value → value → result value := arith Z.sub PrimFloat.sub.

(** *** The platform's [pow]

    For a [float] CPython's [**] ends in [pow] of the C library, which is
    not part of Python: its last bit differs between libraries ([2.759 ** 2]
    is below [2.759 * 2.759] with glibc), so that the library is a parameter
    of the model.  [pow2 x] is C's [pow (x, 2.0)] and [pow2_range_error x]
    says whether [errno] is [ERANGE] after the call; CPython calls [pow]
    with a finite base above zero only, for which C has no domain error.

    What is assumed of the library is what glibc documents of its [pow]
    and what C and POSIX say about range errors: the result is at most one
    unit in the last place away from the correctly rounded square, it is
    infinite when the square overflows, and a range error is reported only
    with an infinite result or with one below the least normal number
    [2 ** -1022]. *)
Class Libm := {
  pow2 : float → float;
  pow2_range_error : float → bool;
  pow2_accurate x :
    is_finite x = true → (0 <? x)%float = true →
    if is_infinity (x * x) then is_infinity (pow2 x) = true
    else pow2 x = (x * x)%float ∨ pow2 x = next_down (x * x) ∨
         pow2 x = next_up (x * x);
  pow2_range x :
    pow2_range_error x = true →
    is_infinity (pow2 x) = true ∨ (abs (pow2 x) <? 0x1p-1022)%float = true
}.

(** A library whose [pow (x, 2.0)] is the correctly rounded square and
    which reports a range error when it overflows.  The theorems hold for
    every library; the cells and examples with [float]s that are evaluated
    below are evaluated with this one. *)
#[global, refine] Instance correctly_rounded : Libm := {|
  pow2 x := (x * x)%float;
  pow2_range_error x := is_infinity (x * x)
|}.
Proof.
  - intros x _ _. by destruct (is_infinity (x * x)); [|left].
  - intros x Hx. by left.
Defined.

(** CPython's [_Py_ADJUST_ERANGE1]: an infinite result is a range error
    also when the library did not report one; a zero result, an underflow,
    is none. *)
Definition adjust_erange1 (ix : float) (erange : bool) : bool :=
  if erange then negb (is_zero ix) else is_infinity ix.

(** [x ** 2] for a [float] x, after CPython's [float_pow] with exponent
    [2.0]: the special cases come first, then C's [pow] on the absolute
    value; a range error becomes [OverflowError]. *)
Definition float_pow2 `{Libm} (iv : float) : result float :=
  if is_nan iv then Ok iv
  else if is_infinity iv then Ok (abs iv)
  else if is_zero iv then Ok zero
  else
    let iv := abs iv in
    if (iv =? one)%float then Ok one
    else
      let ix := pow2 iv in
      if adjust_erange1 ix (pow2_range_error iv) then Raise OverflowError
      else Ok ix.

(** [v ** 2]: exact on [int]. *)
Definition py_pow2 `{Libm} (v : value) : result value :=
  match v with
  | VInt n => Ok (VInt (n ^ 2))
  | VFloat x => VFloat <$> float_pow2 x
  | _ => Raise TypeError
  end.

(** [np.sqrt(v)] on a Python scalar.  A [float] is taken as binary64.  An
    [int] becomes an [int64] when it fits, a [uint64] when that fits, and
    is then converted to binary64; a larger [int] becomes an object array,
    on which the ufunc raises [TypeError].  The square root of a negative
    number is [nan] (with numpy's default error state, which only emits a
    [RuntimeWarning]).  The result is a [numpy.float64], a binary64 number
    like [float]; the code never computes with it again, so that it is a
    [VFloat] here. *)
Definition np_sqrt (v : value) : result value :=
  match v with
  | VFloat x => Ok (VFloat (sqrt x))
  | VInt n =>
      if (- 2 ^ 63 <=? n) && (n <? 2 ^ 64)
      then Ok (VFloat (sqrt (Z2float n)))
      else Raise TypeError
  | _ => Raise TypeError
  end.

(** ** The free function *)

(** [def calc_mass_simple(px, py, pz, E):
       return np.sqrt(E ** 2 - (px ** 2 + py ** 2 + pz ** 2))]
    The operands are evaluated from left to right. *)
Definition calc_mass_simple `{Libm} (px py pz E : value) : result value :=
  E2 ← py_pow2 E;
  px2 ← py_pow2 px;
  py2 ← py_pow2 py;
  s ← py_add px2 py2;
  pz2 ← py_pow2 pz;
  momentum ← py_add s pz2;
  radicand ← py_sub E2 momentum;
  np_sqrt radicand.

(** ** Particles as dicts *)

Definition getitem (d : gmap string value) (k : string) : result value :=
  match d !! k with
  | Some v => Ok v
  | None => Raise KeyError
  end.

(** [def calc_mass(particle):
       momentum = particle['px'] ** 2 + particle['py'] ** 2 + particle['pz'] ** 2
       return np.sqrt(particle['E'] ** 2 - momentum)] *)
Definition calc_mass `{Libm} (particle : gmap string value) : result value :=
  px ← getitem particle "px";
  px2 ← py_pow2 px;
  py ← getitem particle "py";
  py2 ← py_pow2 py;
  s ← py_add px2 py2;
  pz ← getitem particle "pz";
  pz2 ← py_pow2 pz;
  momentum ← py_add s pz2;
  E ← getitem particle "E";
  E2 ← py_pow2 E;
  radicand ← py_sub E2 momentum;
  np_sqrt radicand.

(** Calling a value with one dict argument, as in [pi1['mass'](pi1)]. *)
Definition call `{Libm} (f : value) (arg : gmap string value) : result value :=
  match f with
  | VFunc f_calc_mass => calc_mass arg
  | _ => Raise TypeError
  end.

(** [def make_particle(px, py, pz, E)] of the first definition. *)
Definition make_particle (px py pz E : value) : gmap string value :=
  {[ "px" := px; "py" := py; "pz" := pz; "E" := E;
     "mass" := VFunc f_calc_mass ]}.

(** [def make_particle()] of the second definition, which replaces the
    first one in the notebook. *)
Definition make_particle0 : gmap string value :=
  {[ "px" := VNone; "py" := VNone; "pz" := VNone; "E" := VNone;
     "mass" := VFunc f_calc_mass ]}.

Definition initialize_particle (particle : gmap string value)
    (px py pz E : value) : gmap string value :=
  <["E" := E]> (<["pz" := pz]> (<["py" := py]> (<["px" := px]> particle))).

(** ** Classes and instances *)

Inductive class := SimpleParticle | Particle | VerboseParticle | BetterParticle.

#[global] Instance class_eq_dec : EqDecision class.
Proof. solve_decision. Defined.

(** Method resolution order (without the final [object]):
    [class VerboseParticle(Particle)], [class BetterParticle(Particle)]. *)
Definition mro (c : class) : list class :=
  match c with
  | SimpleParticle => [SimpleParticle]
  | Particle => [Particle]
  | VerboseParticle => [VerboseParticle; Particle]
  | BetterParticle => [BetterParticle; Particle]
  end.

(** The functions that the body of each class defines.  The body of
    [VerboseParticle.momentum_text], which formats three fields into a
    string, is not modelled: only its name takes part in the lookup. *)
Definition namespace (c : class) : list string :=
  match c with
  | SimpleParticle => ["__init__"; "calc_mass"]
  | Particle => ["__init__"; "calc_mass"; "__add__"]
  | VerboseParticle => ["momentum_text"]
  | BetterParticle => ["__init__"]
  end.

(** The class whose function a method name resolves to. *)
Definition lookup_method (c : class) (name : string) : option class :=
  List.find (λ k, existsb (String.eqb name) (namespace k)) (mro c).

Record object := Object { ob_type : class; ob_dict : gmap string value }.

(** A computation over the heap of instances.  The heap is returned also
    when an exception is raised. *)
Definition M (A : Type) : Type := list object → result A * list object.

#[global] Instance M_ret : MRet M := λ A a h, (Ok a, h).
#[global] Instance M_bind : MBind M := λ A B f m h,
  match m h with
  | (Ok a, h') => f a h'
  | (Raise e, h') => (Raise e, h')
  end.

Definition lift {A} (r : result A) : M A := λ h, (r, h).
Definition raise {A} (e : exn) : M A := lift (Raise e).

(** [object.__new__(c)]: a new instance with an empty [__dict__]. *)
Definition alloc (c : class) : M nat :=
  λ h, (Ok (length h), h ++ [Object c ∅]).

(** [type(l)] *)
Definition type_of (l : nat) : M class := λ h,
  match h !! l with
  | Some o => (Ok (ob_type o), h)
  | None => (Raise InvalidReference, h)
  end.

(** [l.name] for a data attribute *)
Definition getattr (l : nat) (name : string) : M value := λ h,
  match h !! l with
  | Some o =>
      match ob_dict o !! name with
      | Some v => (Ok v, h)
      | None => (Raise AttributeError, h)
      end
  | None => (Raise InvalidReference, h)
  end.

(** [l.name = v] *)
Definition setattr (l : nat) (name : string) (v : value) : M unit := λ h,
  match h !! l with
  | Some o => (Ok (), <[l := Object (ob_type o) (<[name := v]> (ob_dict o))]> h)
  | None => (Raise InvalidReference, h)
  end.

(** Method [m] of class [C] is named [C_m] below. *)

(** [SimpleParticle.__init__(self, px, py, pz, E)] *)
Definition SimpleParticle___init__ (self : nat) (px py pz E : value) : M unit :=
  setattr self "px" px;;
  setattr self "py" py;;
  setattr self "pz" pz;;
  setattr self "E" E.

(** [SimpleParticle.calc_mass(self)] *)
Definition SimpleParticle_calc_mass `{Libm} (self : nat) : M value :=
  px ← getattr self "px";
  py ← getattr self "py";
  pz ← getattr self "pz";
  E ← getattr self "E";
  lift (calc_mass_simple px py pz E).

(** [Particle.__init__(self, px, py, pz, E)] *)
Definition Particle___init__ (self : nat) (px py pz E : value) : M unit :=
  setattr self "px" px;;
  setattr self "py" py;;
  setattr self "pz" pz;;
  setattr self "E" E.

(** [Particle.calc_mass(self)] *)
Definition Particle_calc_mass `{Libm} (self : nat) : M value :=
  px ← getattr self "px";
  py ← getattr self "py";
  pz ← getattr self "pz";
  E ← getattr self "E";
  lift (calc_mass_simple px py pz E).

(** [BetterParticle.__init__(self, px, py, pz, E, superpower=42)];
    [super()] is [Particle]. *)
Definition BetterParticle___init__ (self : nat) (px py pz E superpower : value)
    : M unit :=
  Particle___init__ self px py pz E;;
  setattr self "superpower" superpower.

(** [c.__init__(self, args...)]: resolve [__init__] along the MRO and bind
    the positional arguments; [object.__init__] takes none. *)
Definition call_init (c : class) (self : nat) (args : list value) : M unit :=
  match lookup_method c "__init__", args with
  | Some SimpleParticle, [px; py; pz; E] => SimpleParticle___init__ self px py pz E
  | Some Particle, [px; py; pz; E] => Particle___init__ self px py pz E
  | Some BetterParticle, [px; py; pz; E] =>
      BetterParticle___init__ self px py pz E (VInt 42)
  | Some BetterParticle, [px; py; pz; E; superpower] =>
      BetterParticle___init__ self px py pz E superpower
  | None, [] => mret ()
  | _, _ => raise TypeError
  end.

(** [c(args...)]: calling a class makes the instance, then initialises it. *)
Definition construct (c : class) (args : list value) : M nat :=
  self ← alloc c;
  call_init c self args;;
  mret self.

(** [Particle.__add__(self, other)]; the class of the result is written
    out in the source: [return Particle(new_px, new_py, new_pz, new_E)]. *)
Definition Particle___add__ (self other : nat) : M nat :=
  a ← getattr self "px"; b ← getattr other "px"; new_px ← lift (py_add a b);
  a ← getattr self "py"; b ← getattr other "py"; new_py ← lift (py_add a b);
  a ← getattr self "pz"; b ← getattr other "pz"; new_pz ← lift (py_add a b);
  a ← getattr self "E"; b ← getattr other "E"; new_E ← lift (py_add a b);
  construct Particle [new_px; new_py; new_pz; new_E].

(** [a + b] on instances: [type(a).__add__(a, b)].  No class defines
    [__radd__], so there is no fallback. *)
Definition add (a b : nat) : M nat :=
  c ← type_of a;
  match lookup_method c "__add__" with
  | Some Particle => Particle___add__ a b
  | _ => raise TypeError
  end.

(** [p.calc_mass()] *)
Definition call_calc_mass `{Libm} (p : nat) : M value :=
  c ← type_of p;
  match lookup_method c "calc_mass" with
  | Some SimpleParticle => SimpleParticle_calc_mass p
  | Some Particle => Particle_calc_mass p
  | _ => raise AttributeError
  end.

(** Reading back the four fields of an instance. *)
Definition components (p : nat) : M (value * value * value * value) :=
  px ← getattr p "px";
  py ← getattr p "py";
  pz ← getattr p "pz";
  E ← getattr p "E";
  mret (px, py, pz, E).

(** ** Cells of the notebook *)

(** [particle1 = VerboseParticle(10, 10, 10, 50)
     particle2 = VerboseParticle(10, 10, 10, 50)
     new_particle = particle1 + particle2
     type(new_particle)] *)
Definition cell_verbose : M class :=
  particle1 ← construct VerboseParticle [VInt 10; VInt 10; VInt 10; VInt 50];
  particle2 ← construct VerboseParticle [VInt 10; VInt 10; VInt 10; VInt 50];
  new_particle ← add particle1 particle2;
  type_of new_particle.

(** [isinstance(l, c)] *)
Definition isinstance (l : nat) (c : class) : M bool :=
  t ← type_of l;
  mret (bool_decide (c ∈ mro t)).

(** ** Auxiliary definitions for the statements *)

(** The [__dict__] that [Particle.__init__] leaves behind. *)
Definition fields (px py pz E : value) : gmap string value :=
  <["E" := E]> (<["pz" := pz]> (<["py" := py]> (<["px" := px]> ∅))).

(** The components of [a + b], read back from the sum. *)
Definition sum_components (a b : nat) : M (value * value * value * value) :=
  r ← add a b; components r.

(** The components of [(a + b) + c] and of [a + (b + c)]. *)
Definition sum_left (a b c : nat) : M (value * value * value * value) :=
  ab ← add a b; r ← add ab c; components r.

Definition sum_right (a b c : nat) : M (value * value * value * value) :=
  bc ← add b c; r ← add a bc; components r.

(** The dict [{'px': px, 'py': py, 'pz': pz, 'E': E}]. *)
Definition particle_dict (px py pz E : value) : gmap string value :=
  {[ "px" := px; "py" := py; "pz" := pz; "E" := E ]}.

(** An outcome that is an exception or a not-a-number. *)
Definition error_or_nan (r : result value) : bool :=
  match r with
  | Raise _ => true
  | Ok v => is_nan_value v
  end.

Definition is_number (v : value) : bool :=
  match v with
  | VInt _ | VFloat _ => true
  | VNone | VFunc _ => false
  end.

(** On numbers the arithmetic returns numbers and raises nothing but
    [OverflowError]. *)
Definition number_or_overflow (r : result value) : Prop :=
  match r with
  | Ok v => is_number v = true
  | Raise e => e = OverflowError
  end.

(** The rational number that a finite Python number stands for. *)
Definition exact (v : value) : option Q :=
  match v with
  | VInt n => Some (inject_Z n)
  | VFloat x =>
      match Prim2SF x with
      | S754_zero _ => Some 0%Q
      | S754_finite s m e =>
          Some (inject_Z (cond_Zopp s (Zpos m)) * 2 ^ e)%Q
      | _ => None
      end
  | _ => None
  end.

(** [E^2 < px^2 + py^2 + pz^2], on the numbers themselves. *)
Definition radicand_negative (px py pz E : value) : option bool :=
  x ← exact px; y ← exact py; z ← exact pz; e ← exact E;
  Some (negb (Qle_bool (x * x + y * y + z * z) (e * e))).

(** The square of a finite [float] is beyond the range of binary64. *)
Definition square_overflows (x : float) : bool :=
  is_infinity (x * x) && negb (is_infinity x).

(** A number that is not a NaN and has sign [s]: a zero, a finite number
    or an infinity. *)
Definition has_sign (s : bool) (x : spec_float) : Prop :=
  match x with
  | S754_nan => False
  | S754_zero s' | S754_infinity s' | S754_finite s' _ _ => s' = s
  end.

(** The same, but not a zero. *)
Definition nonzero_with_sign (s : bool) (x : spec_float) : Prop :=
  match x with
  | S754_nan | S754_zero _ => False
  | S754_infinity s' | S754_finite s' _ _ => s' = s
  end.

(** The number of opposite sign ([-v] in Python); other values are left
    alone. *)
Definition negate (v : value) : value :=
  match v with
  | VInt n => VInt (- n)
  | VFloat x => VFloat (- x)
  | _ => v
  end.

Definition flip (b : bool) (v : value) : value := if b then negate v else v.

(** ** More cells and heaps of the notebook *)


(** Two [BetterParticle]s, made with the default [superpower]. *)
Definition heap_better12 : list object :=
  snd ((construct BetterParticle [VInt 10; VInt 20; VInt 30; VInt 100];;
        construct BetterParticle [VInt 50; VInt 10; VInt 20; VInt 200]) []).

(** Three particles with [int] fields, and three whose [px] is a [float]. *)
Definition heap_int123 : list object :=
  snd ((construct Particle [VInt 10; VInt 20; VInt 30; VInt 100];;
        construct Particle [VInt 50; VInt 10; VInt 20; VInt 200];;
        construct Particle [VInt 1; VInt 2; VInt 3; VInt 4]) []).

Definition heap_float123 : list object :=
  snd ((construct Particle [VFloat 0.1; VInt 0; VInt 0; VInt 1];;
        construct Particle [VFloat 0.2; VInt 0; VInt 0; VInt 1];;
        construct Particle [VFloat 0.3; VInt 0; VInt 0; VInt 1]) []).

(** The cell [e1 = make_particle(20, 30, 20, E=41.234227); e1['mass'](e1)]. *)
Definition cell_e1 `{Libm} : result value :=
  let e1 := make_particle (VInt 20) (VInt 30) (VInt 20) (VFloat 41.234227) in
  mass ← getitem e1 "mass";
  call mass e1.

(** [particle1 = SimpleParticle(20, 30, pz=40, E=80)] and a [Particle]. *)
Definition heap_simple_particle : list object :=
  snd ((construct SimpleParticle [VInt 20; VInt 30; VInt 40; VInt 80];;
        construct Particle [VInt 10; VInt 20; VInt 30; VInt 100]) []).

(** * The notebook on dunder methods

    The second notebook of the file.  Its classes print, so that a
    computation also carries the lines printed so far; the exceptions it
    meets are [TypeError] and [IndexError].  Names and printed values are
    strings and [int]s, as in the cells. *)

Module Advanced.

Inductive exc := TypeError | IndexError.

Inductive res (A : Type) :=
  | Returns (a : A)
  | Raises (e : exc).
Arguments Returns {A} a.
Arguments Raises {A} e.

(** A computation over a state [S]; the state is kept when it raises. *)
Definition ST (S A : Type) : Type := S → res A * S.

#[global] Instance ST_ret S : MRet (ST S) := λ A a s, (Returns a, s).
#[global] Instance ST_bind S : MBind (ST S) := λ A B f m s,
  match m s with
  | (Returns a, s') => f a s'
  | (Raises e, s') => (Raises e, s')
  end.

Definition throw {S A} (e : exc) : ST S A := λ s, (Raises e, s).

(** [print(line)] where the state is the output. *)
Definition print (line : string) : ST (list string) unit :=
  λ out, (Returns (), out ++ [line]).

(** ** [NamedValue], [ValueLeft], [ValueRight], [Value] *)

Module Values.

Inductive class := NamedValue | ValueLeft | ValueRight | Value.

#[global] Instance class_eq_dec : EqDecision class.
Proof. solve_decision. Defined.

(** [class ValueLeft(NamedValue)], [class ValueRight(NamedValue)],
    [class Value(ValueRight, ValueLeft)]: the linearisation, without the
    final [object]. *)
Definition mro (c : class) : list class :=
  match c with
  | NamedValue => [NamedValue]
  | ValueLeft => [ValueLeft; NamedValue]
  | ValueRight => [ValueRight; NamedValue]
  | Value => [Value; ValueRight; ValueLeft; NamedValue]
  end.

Definition namespace (c : class) : list string :=
  match c with
  | NamedValue => ["__init__"]
  | ValueLeft => ["__add__"]
  | ValueRight => ["__radd__"]
  | Value => []
  end.

(** The class whose function a method name resolves to. *)
Definition lookup_method (c : class) (name : string) : option class :=
  List.find (λ k, existsb (String.eqb name) (namespace k)) (mro c).

(** An instance: its class and the [name] that [NamedValue.__init__]
    stores.  No method changes an instance. *)
Record instance := Instance { type : class; name : string }.

(** [ValueLeft.__add__(self, other)] *)
Definition ValueLeft___add__ (self other : instance) : ST (list string) Z :=
  print ("add called on " +:+ name self);;
  mret 42.

(** [ValueRight.__radd__(self, other)]; the string that it prints is not
    an f-string in the source. *)
Definition ValueRight___radd__ (self other : instance) : ST (list string) Z :=
  print "radd called on {self.name}";;
  mret 24.

(** Calling the method [m] of [self], if its class has one; [None] stands
    for [NotImplemented]. *)
Definition call_maybe (self : instance) (m : string) (other : instance)
    : ST (list string) (option Z) :=
  match lookup_method (type self) m with
  | Some ValueLeft => if String.eqb m "__add__"
                      then x ← ValueLeft___add__ self other; mret (Some x)
                      else mret None
  | Some ValueRight => if String.eqb m "__radd__"
                       then x ← ValueRight___radd__ self other; mret (Some x)
                       else mret None
  | _ => mret None
  end.

(** A class has the slot for [+] when it defines or inherits [__add__] or
    [__radd__]. *)
Definition has_slot (c : class) : bool :=
  bool_decide (is_Some (lookup_method c "__add__")) ||
  bool_decide (is_Some (lookup_method c "__radd__")).

(** The class of [right] has its own [m]: one that the class of [left]
    does not have, or has from another class. *)
Definition method_is_overloaded (left right : instance) (m : string) : bool :=
  match lookup_method (type right) m with
  | None => false
  | Some fr =>
      match lookup_method (type left) m with
      | None => true
      | Some fl => negb (bool_decide (fl = fr))
      end
  end.

(** The slot function of [+] (CPython's [slot_nb_add]): the reflected
    method of a proper subclass that overloads it goes first, then
    [__add__] of the left operand, then [__radd__] of the right one when
    the classes differ. *)
Definition slot_nb_add (self other : instance) : ST (list string) (option Z) :=
  let do_other :=
    negb (bool_decide (type self = type other)) && has_slot (type other) in
  let reflected := call_maybe other "__radd__" self in
  let direct_then_reflected (do_other : bool) :=
    r ← call_maybe self "__add__" other;
    match r with
    | Some x => mret (Some x)
    | None =>
        if bool_decide (type self = type other) then mret None
        else if do_other then reflected else mret None
    end in
  if has_slot (type self) then
    if do_other && bool_decide (type self ∈ mro (type other)) &&
       method_is_overloaded self other "__radd__"
    then
      r ← reflected;
      match r with
      | Some x => mret (Some x)
      | None => direct_then_reflected false
      end
    else direct_then_reflected do_other
  else if do_other then reflected else mret None.

(** [v + w] (CPython's [binary_op1] for two instances of these classes):
    the slot of the left class, or else the one of the right class; when
    nothing is implemented it is a [TypeError]. *)
Definition add (v w : instance) : ST (list string) Z :=
  r ← (if has_slot (type v) then slot_nb_add v w
       else if negb (bool_decide (type v = type w)) && has_slot (type w)
            then slot_nb_add v w
            else mret None);
  match r with
  | Some x => mret x
  | None => throw TypeError
  end.

End Values.

(** ** [Name], [NameRepr], [NameStr], [NameStrRepr] *)

Module Names.

Inductive class := Name | NameRepr | NameStr | NameStrRepr.

(** [class NameStrRepr(NameStr, NameRepr)] *)
Definition mro (c : class) : list class :=
  match c with
  | Name => [Name]
  | NameRepr => [NameRepr; Name]
  | NameStr => [NameStr; Name]
  | NameStrRepr => [NameStrRepr; NameStr; NameRepr; Name]
  end.

Definition namespace (c : class) : list string :=
  match c with
  | Name => ["__init__"]
  | NameRepr => ["__repr__"]
  | NameStr => ["__str__"]
  | NameStrRepr => []
  end.

Definition lookup_method (c : class) (name : string) : option class :=
  List.find (λ k, existsb (String.eqb name) (namespace k)) (mro c).

Definition class_name (c : class) : string :=
  match c with
  | Name => "Name"
  | NameRepr => "NameRepr"
  | NameStr => "NameStr"
  | NameStrRepr => "NameStrRepr"
  end.

(** What a name can be here: a [str] or an [int]. *)
Inductive pyname := Str (s : string) | Int (n : Z).

(** [format(v, '')], as an f-string does it. *)
Definition format (v : pyname) : string :=
  match v with
  | Str s => s
  | Int n => pretty n
  end.

(** An instance: its class, the [name] stored by [Name.__init__], and its
    address, which the [repr] of [object] shows. *)
Record instance := Instance { type : class; name : pyname; id : N }.

(** [object.__repr__]: [<__main__.Name object at 0x7f...>] *)
Definition object___repr__ (self : instance) : string :=
  "<__main__." +:+ class_name (type self) +:+ " object at 0x" +:+
  HexadecimalString.NilZero.string_of_uint (N.to_hex_uint (id self)) +:+ ">".

(** [NameRepr.__repr__(self)]: [return self.name] *)
Definition NameRepr___repr__ (self : instance) : pyname := name self.

(** [NameStr.__str__(self)]: [return f'I am {self.name}'] *)
Definition NameStr___str__ (self : instance) : string :=
  "I am " +:+ format (name self).

(** [repr(x)]: what [__repr__] returns has to be a [str]. *)
Definition repr (x : instance) : res string :=
  match lookup_method (type x) "__repr__" with
  | Some _ =>
      match NameRepr___repr__ x with
      | Str s => Returns s
      | Int _ => Raises TypeError
      end
  | None => Returns (object___repr__ x)
  end.

(** [str(x)]: [object.__str__] is [repr]. *)
Definition str (x : instance) : res string :=
  match lookup_method (type x) "__str__" with
  | Some _ => Returns (NameStr___str__ x)
  | None => repr x
  end.

End Names.

(** ** [Storage] *)

Module Storage.

(** An instance: [self.name] and the list [self.container]. *)
Record instance := Instance { name : string; container : list Z }.

(** The heap of the instances and the output. *)
Record world := World { heap : list instance; out : list string }.

Definition print (line : string) : ST world unit :=
  λ w, (Returns (), World (heap w) (out w ++ [line])).

(** [Storage(name)]: [__init__] stores the name and the list
    [[1, 5, 4]] in the new instance. *)
Definition construct (name : string) : ST world nat :=
  λ w, (Returns (length (heap w)),
        World (heap w ++ [Instance name [1; 5; 4]]) (out w)).

(** The position that an [int] index has in a list of length [len]: a
    negative index counts from the end; [None] when it is out of range. *)
Definition list_index (len : nat) (index : Z) : option nat :=
  if (0 <=? index) && (index <? Z.of_nat len) then Some (Z.to_nat index)
  else if (- Z.of_nat len <=? index) && (index <? 0)
       then Some (Z.to_nat (Z.of_nat len + index))
       else None.

(** The instance at [self]; no Python program has a reference to an
    instance that does not exist, so that the model stops there with a
    [TypeError] of its own. *)
Definition load (self : nat) : ST world instance := λ w,
  match heap w !! self with
  | Some o => (Returns o, w)
  | None => (Raises TypeError, w)
  end.

Definition store (self : nat) (o : instance) : ST world unit := λ w,
  (Returns (), World (<[self := o]> (heap w)) (out w)).

(** [Storage.__getitem__(self, index)] for an [int] index *)
Definition __getitem__ (self : nat) (index : Z) : ST world Z :=
  o ← load self;
  print ("getitem of " +:+ name o +:+ " invoked with index " +:+ pretty index);;
  match list_index (length (container o)) index with
  | Some i =>
      match container o !! i with
      | Some x => mret x
      | None => throw IndexError
      end
  | None => throw IndexError
  end.

(** [Storage.__setitem__(self, index, item)] for an [int] index and an
    [int] item; the list is changed in place. *)
Definition __setitem__ (self : nat) (index item : Z) : ST world unit :=
  o ← load self;
  print ("setitem of " +:+ name o +:+ " invoked with index " +:+ pretty index
         +:+ " and item " +:+ pretty item);;
  match list_index (length (container o)) index with
  | Some i => store self (Instance (name o) (<[i := item]> (container o)))
  | None => throw IndexError
  end.

End Storage.

(** ** [GetAndSet] *)

Module GetAndSet.

(** An instance: the list [self.values]. *)
Record instance := Instance { values : list Z }.

(** [GetAndSet()]: [__init__] stores [[1, 2, 3, 4, 5]]. *)
Definition construct : instance := Instance [1; 2; 3; 4; 5].

Inductive function := f___init__ | f_add | f___getattr__.

(** What an attribute can be: the list, a method bound to its instance, or
    [None]. *)
Inductive attr :=
  | List (l : list Z)
  | Method (f : function) (self : instance)
  | NoneValue.

(** The functions of the class body. *)
Definition namespace (name : string) : option function :=
  if String.eqb name "__init__" then Some f___init__
  else if String.eqb name "add" then Some f_add
  else if String.eqb name "__getattr__" then Some f___getattr__
  else None.

(** [GetAndSet.add(self, y)]: [self.values[0] + y.values[1]] *)
Definition add (self y : instance) : ST (list string) Z :=
  match values self !! 0%nat with
  | Some a =>
      match values y !! 1%nat with
      | Some b => mret (a + b)
      | None => throw IndexError
      end
  | None => throw IndexError
  end.

(** [GetAndSet.__getattr__(self, name)]; a function that ends without
    [return] returns [None]. *)
Definition __getattr__ (self : instance) (name : string)
    : ST (list string) attr :=
  if bool_decide (name ∈ ["add"; "addition"]) then mret (Method f_add self)
  else if String.eqb name "hello" then print "I am 42";; mret NoneValue
  else mret NoneValue.

(** [self.name]: the instance, then the class, then [__getattr__].  The
    attributes that every [object] has (all of the form [__x__]) are not
    part of this model. *)
Definition getattribute (self : instance) (name : string)
    : ST (list string) attr :=
  if String.eqb name "values" then mret (List (values self))
  else match namespace name with
       | Some f => mret (Method f self)
       | None => __getattr__ self name
       end.

(** [f(y)] for an attribute [f]: only a method can be called; only the
    call of [add] is modelled ([__init__] and [__getattr__] take other
    arguments). *)
Definition call (f : attr) (y : instance) : ST (list string) Z :=
  match f with
  | Method f_add self => add self y
  | _ => throw TypeError
  end.

End GetAndSet.

End Advanced.

(** * Properties *)

(** The theorems on the mass hold for every C library: they have the
    parameter [`{Libm}].  Their instances on concrete numbers (the lemmas
    named [_witness] and the counterexamples) have no parameter; they are
    evaluated with the library [correctly_rounded], and where a [float] is
    squared in them a lemma for every library stands next to them. *)

(** ** Running computations *)

Section run.
Context {A B : Type}.
Implicit Types (m : M A) (f : A → M B) (h : list object).

Lemma bind_run m f h :
  (m ≫= f) h =
  match m h with
  | (Ok a, h') => f a h'
  | (Raise e, h') => (Raise e, h')
  end.
Proof. reflexivity. Qed.

Lemma bind_ok m f h a h' : m h = (Ok a, h') → (m ≫= f) h = f a h'.
Proof. intros Hm. rewrite bind_run, Hm. reflexivity. Qed.

End run.

Lemma lift_run {A} (r : result A) h : lift r h = (r, h).
Proof. reflexivity. Qed.

Lemma getattr_run h l o name :
  h !! l = Some o →
  getattr l name h =
  (match ob_dict o !! name with Some v => Ok v | None => Raise AttributeError end, h).
Proof. intros Hl. unfold getattr. rewrite Hl. by destruct (ob_dict o !! name). Qed.

Lemma getattr_dangling h l name :
  h !! l = None → getattr l name h = (Raise InvalidReference, h).
Proof. intros Hl. unfold getattr. by rewrite Hl. Qed.

Lemma type_of_run h l o : h !! l = Some o → type_of l h = (Ok (ob_type o), h).
Proof. intros Hl. unfold type_of. by rewrite Hl. Qed.

(** Writing an attribute of the instance allocated last. *)
Lemma setattr_last h c d name v :
  setattr (length h) name v (h ++ [Object c d]) =
  (Ok (), h ++ [Object c (<[name := v]> d)]).
Proof.
  unfold setattr. rewrite list_lookup_middle by done. simpl.
  f_equal. rewrite insert_app_r_alt by done.
  by rewrite Nat.sub_diag.
Qed.

Lemma Particle_init_last h c px py pz E :
  Particle___init__ (length h) px py pz E (h ++ [Object c ∅]) =
  (Ok (), h ++ [Object c (fields px py pz E)]).
Proof.
  unfold Particle___init__.
  repeat (rewrite bind_run, setattr_last). apply setattr_last.
Qed.

Lemma construct_run c h px py pz E :
  construct c [px; py; pz; E] h =
  (Ok (length h),
   h ++ [Object c (if decide (c = BetterParticle)
                   then <["superpower" := VInt 42]> (fields px py pz E)
                   else fields px py pz E)]).
Proof.
  unfold construct. rewrite bind_run. unfold alloc.
  destruct c; simpl; unfold call_init; simpl.
  - unfold SimpleParticle___init__. rewrite bind_run.
    repeat (rewrite bind_run, setattr_last). by rewrite setattr_last.
  - rewrite bind_run. by rewrite Particle_init_last.
  - rewrite bind_run. by rewrite Particle_init_last.
  - unfold BetterParticle___init__. rewrite bind_run.
    rewrite bind_run, Particle_init_last. by rewrite setattr_last.
Qed.

Lemma fields_lookup px py pz E :
  fields px py pz E !! "px" = Some px ∧ fields px py pz E !! "py" = Some py ∧
  fields px py pz E !! "pz" = Some pz ∧ fields px py pz E !! "E" = Some E ∧
  fields px py pz E !! "superpower" = None.
Proof. unfold fields. by simplify_map_eq. Qed.

(** ** The cells of the notebook, evaluated *)

(** [calc_mass_simple(pi1_px, pi1_py, pi1_pz, pi1_E)] and
    [pi1['mass'](pi1)] on the particle [(10, 20, 30, 100)]. *)
Example cell_pi1 `{Libm} :
  calc_mass_simple (VInt 10) (VInt 20) (VInt 30) (VInt 100) = Ok (VFloat (sqrt 8600)) ∧
  (let pi1 := make_particle (VInt 10) (VInt 20) (VInt 30) (VInt 100) in
   mass ← getitem pi1 "mass"; call mass pi1) = Ok (VFloat (sqrt 8600)).
Proof. split; reflexivity. Qed.

(** [particle1 = initialize_particle(make_particle(), px=20, py=30, pz=20, E=50)
     particle1['mass'](particle1)] *)
Example cell_initialize_particle `{Libm} :
  (let particle1 :=
     initialize_particle make_particle0 (VInt 20) (VInt 30) (VInt 20) (VInt 50) in
   mass ← getitem particle1 "mass"; call mass particle1) = Ok (VFloat (sqrt 800)).
Proof. reflexivity. Qed.

(** A fresh dict of the second [make_particle] holds [None]s, which have
    no square. *)
Example cell_make_particle0 `{Libm} : calc_mass make_particle0 = Raise TypeError.
Proof. reflexivity. Qed.

(** [particle1 = SimpleParticle(20, 30, pz=40, E=80)
     particle1.calc_mass()
     particle1.pz] *)
Example cell_SimpleParticle `{Libm} :
  fst ((particle1 ← construct SimpleParticle [VInt 20; VInt 30; VInt 40; VInt 80];
        m ← call_calc_mass particle1;
        pz ← getattr particle1 "pz";
        mret (m, pz)) []) = Ok (VFloat (sqrt 3500), VInt 40).
Proof. reflexivity. Qed.

(** A [SimpleParticle] has no [__add__]. *)
Example cell_SimpleParticle_add :
  fst ((particle1 ← construct SimpleParticle [VInt 20; VInt 30; VInt 40; VInt 80];
        add particle1 particle1) []) = Raise TypeError.
Proof. reflexivity. Qed.

(** What a successful read of the four fields says about the heap. *)
Lemma components_inv h p px py pz E :
  fst (components p h) = Ok (px, py, pz, E) →
  ∃ o, h !! p = Some o ∧
    ob_dict o !! "px" = Some px ∧ ob_dict o !! "py" = Some py ∧
    ob_dict o !! "pz" = Some pz ∧ ob_dict o !! "E" = Some E.
Proof.
  unfold components. rewrite !bind_run. unfold getattr.
  destruct (h !! p) as [o|] eqn:Hp; [|done].
  repeat (rewrite ?bind_run, ?Hp;
          match goal with
          | |- context [ob_dict o !! ?n] => destruct (ob_dict o !! n) eqn:?; [|done]
          end).
  simpl. intros [= -> -> -> ->]. eauto 10.
Qed.

Lemma components_intro h p o px py pz E :
  h !! p = Some o →
  ob_dict o !! "px" = Some px → ob_dict o !! "py" = Some py →
  ob_dict o !! "pz" = Some pz → ob_dict o !! "E" = Some E →
  components p h = (Ok (px, py, pz, E), h).
Proof.
  intros Hp Hx Hy Hz HE. unfold components.
  repeat (rewrite bind_run, (getattr_run _ _ _ _ Hp), ?Hx, ?Hy, ?Hz, ?HE).
  reflexivity.
Qed.

(** ** Binary64 facts behind [np.sqrt] and [**] *)

Module Binary64.

Lemma shr_1_div2 r : 0 ≤ shr_m r → shr_m (shr_1 r) = shr_m r / 2.
Proof.
  destruct r as [[|[p|p|]|p] r s]; cbn [shr_1 shr_m]; try lia; intros _.
  - reflexivity.
  - rewrite Pos2Z.inj_xI. apply Z.div_unique with 1; lia.
  - rewrite Pos2Z.inj_xO. apply Z.div_unique with 0; lia.
  - reflexivity.
Qed.

Lemma shr_iter_div n r :
  0 ≤ shr_m r → shr_m (SpecFloat.iter_pos shr_1 n r) = shr_m r / 2 ^ Zpos n.
Proof.
  revert r. induction n as [n IH|n IH|]; simpl; intros r Hr.
  - assert (0 ≤ shr_m (shr_1 r)) by (rewrite shr_1_div2 by done; by apply Z.div_pos).
    assert (0 ≤ shr_m (SpecFloat.iter_pos shr_1 n (shr_1 r)))
      by (rewrite IH by done; apply Z.div_pos; lia).
    rewrite !IH, shr_1_div2 by done.
    rewrite !Z.div_div by lia. f_equal.
    replace (Z.pos n~1) with (1 + Z.pos n + Z.pos n) by lia.
    rewrite !Z.pow_add_r, Z.pow_1_r by lia. ring.
  - assert (0 ≤ shr_m (SpecFloat.iter_pos shr_1 n r))
      by (rewrite IH by done; apply Z.div_pos; lia).
    rewrite !IH by done. rewrite Z.div_div by lia. f_equal.
    replace (Z.pos n~0) with (Z.pos n + Z.pos n) by lia.
    by rewrite Z.pow_add_r by lia.
  - by rewrite shr_1_div2.
Qed.

Lemma shr_record_of_loc_m m l : shr_m (shr_record_of_loc m l) = m.
Proof. by destruct l as [|[]]. Qed.

Lemma digits2_pos_le p : 2 ^ (Zpos (digits2_pos p) - 1) ≤ Zpos p.
Proof.
  induction p as [p IH|p IH|]; cbn [digits2_pos]; [| |done].
  - rewrite Pos2Z.inj_succ.
    replace (Z.succ (Zpos (digits2_pos p)) - 1) with
      (Z.succ (Zpos (digits2_pos p) - 1)) by lia.
    rewrite Z.pow_succ_r by lia. lia.
  - rewrite Pos2Z.inj_succ.
    replace (Z.succ (Zpos (digits2_pos p)) - 1) with
      (Z.succ (Zpos (digits2_pos p) - 1)) by lia.
    rewrite Z.pow_succ_r by lia. lia.
Qed.

(** Shifting a mantissa to its place keeps it non-negative, and keeps a
    positive one positive as long as the exponent is not below [emin]. *)
Lemma shr_fexp_nonneg m e l :
  0 ≤ m → 0 ≤ shr_m (fst (shr_fexp prec emax m e l)).
Proof.
  intros Hm. unfold shr_fexp, shr.
  destruct (fexp prec emax (Zdigits2 m + e) - e) as [|n|n]; simpl;
    rewrite ?shr_iter_div, shr_record_of_loc_m
      by (by rewrite shr_record_of_loc_m);
    try done.
  apply Z.div_pos; lia.
Qed.

Lemma shr_fexp_pos m e l :
  0 < m → SpecFloat.emin prec emax ≤ e →
  0 < shr_m (fst (shr_fexp prec emax m e l)) ∧
  SpecFloat.emin prec emax ≤ snd (shr_fexp prec emax m e l).
Proof.
  intros Hm He. unfold shr_fexp, shr.
  destruct (fexp prec emax (Zdigits2 m + e) - e) as [|n|n] eqn:Hn; simpl;
    rewrite ?shr_iter_div, shr_record_of_loc_m
      by (rewrite shr_record_of_loc_m; lia);
    try done.
  split; [|lia].
  destruct m as [|p|p]; try done. simpl in Hn.
  pose proof (digits2_pos_le p) as Hd.
  apply Z.div_str_pos. split; [lia|].
  etrans; [|exact Hd]. apply Z.pow_le_mono_r; [lia|].
  unfold fexp, SpecFloat.emin, prec, emax in *. lia.
Qed.

Lemma round_nearest_even_ge m l : m ≤ round_nearest_even m l.
Proof. unfold round_nearest_even. repeat case_match; lia. Qed.

Lemma binary_round_aux_nonneg s m e l :
  0 ≤ m → has_sign s (binary_round_aux prec emax s m e l).
Proof.
  intros Hm. unfold binary_round_aux.
  pose proof (shr_fexp_nonneg m e l Hm) as H1.
  destruct (shr_fexp prec emax m e l) as [r1 e1]. simpl in H1.
  pose proof (round_nearest_even_ge (shr_m r1) (loc_of_shr_record r1)) as H2.
  pose proof (shr_fexp_nonneg (round_nearest_even (shr_m r1) (loc_of_shr_record r1))
                e1 loc_Exact ltac:(lia)) as H3.
  destruct (shr_fexp prec emax _ e1 loc_Exact) as [r2 e2]. simpl in H3.
  destruct (shr_m r2); [done| |lia]. by case_match.
Qed.

Lemma binary_round_aux_pos s m e l :
  0 < m → SpecFloat.emin prec emax ≤ e →
  nonzero_with_sign s (binary_round_aux prec emax s m e l).
Proof.
  intros Hm He. unfold binary_round_aux.
  pose proof (shr_fexp_pos m e l Hm He) as [H1 He1].
  destruct (shr_fexp prec emax m e l) as [r1 e1]. simpl in H1, He1.
  pose proof (round_nearest_even_ge (shr_m r1) (loc_of_shr_record r1)) as H2.
  pose proof (shr_fexp_pos (round_nearest_even (shr_m r1) (loc_of_shr_record r1))
                e1 loc_Exact ltac:(lia) He1) as [H3 _].
  destruct (shr_fexp prec emax _ e1 loc_Exact) as [r2 e2]. simpl in H3.
  destruct (shr_m r2); [lia| |lia]. by case_match.
Qed.

(** The conversion of a positive integer is positive. *)
Lemma binary_normalize_pos p :
  nonzero_with_sign false (binary_normalize prec emax (Zpos p) 0 false).
Proof.
  simpl. unfold binary_round.
  destruct (shl_align _ _ _) as [mz ez] eqn:Hs.
  apply binary_round_aux_pos; [done|].
  unfold shl_align in Hs.
  destruct (fexp prec emax (Zpos (digits2_pos p) + 0) - 0) eqn:Hf;
    injection Hs as <- <-;
    unfold fexp, SpecFloat.emin, prec, emax in *; lia.
Qed.

Lemma binary_round_opp p e :
  binary_round prec emax true p e = SFopp (binary_round prec emax false p e).
Proof.
  unfold binary_round. destruct (shl_align _ _ _) as [mz ez].
  unfold binary_round_aux.
  destruct (shr_fexp prec emax (Zpos mz) ez loc_Exact) as [r1 e1].
  destruct (shr_fexp prec emax _ e1 loc_Exact) as [r2 e2].
  destruct (shr_m r2); [done| |done]. by case_match.
Qed.

Lemma SF2Prim_opp x :
  has_sign false x → SF2Prim (SFopp x) = (- SF2Prim x)%float.
Proof. destruct x as [[]|[]| |[] m e]; done. Qed.

(** The square root of a number that is not negative is not a NaN; the
    one of a negative number is. *)
Lemma SFsqrt_nonneg x : has_sign false x → has_sign false (SF64sqrt x).
Proof.
  destruct x as [s|s| |s m e]; simpl; intros Hs; subst; try done.
  unfold SFsqrt_core_binary.
  destruct (Z.sqrtrem _) as [q r] eqn:Hq.
  apply binary_round_aux_nonneg.
  change q with (fst (q, r)). rewrite <- Hq, Z.sqrtrem_sqrt.
  apply Z.sqrt_nonneg.
Qed.

Lemma SFsqrt_neg x : nonzero_with_sign true x → SF64sqrt x = S754_nan.
Proof. destruct x as [s|s| |s m e]; simpl; intros Hs; by subst. Qed.

Lemma is_nan_Prim2SF x : is_nan x = true ↔ Prim2SF x = S754_nan.
Proof.
  unfold Prim2SF. destruct (is_nan x); [done|].
  split; [done|]. repeat case_match; discriminate.
Qed.

(** The conversion of an [int64] above its minimum, seen through the
    specification of the primitive conversion. *)
Lemma Z2float_nonneg n :
  0 ≤ n < 2 ^ 63 → Prim2SF (Z2float n) = binary_normalize prec emax n 0 false.
Proof.
  intros Hn.
  assert (Z2float n = of_uint63 (of_Z n)) as ->.
  { rewrite <- (SF2Prim_Prim2SF (of_uint63 (of_Z n))), of_uint63_spec.
    rewrite of_Z_spec, Z.mod_small; [done|]. exact Hn. }
  rewrite of_uint63_spec, of_Z_spec, Z.mod_small; [done|]. exact Hn.
Qed.

Lemma Z2float_neg p :
  Zpos p < 2 ^ 63 →
  Prim2SF (Z2float (Zneg p)) = SFopp (binary_normalize prec emax (Zpos p) 0 false).
Proof.
  intros Hp.
  pose proof (binary_normalize_pos p) as Hs.
  unfold Z2float. cbn [binary_normalize] in *.
  rewrite binary_round_opp, SF2Prim_opp, opp_spec.
  - f_equal. apply (Z2float_nonneg (Zpos p)). lia.
  - by destruct (binary_round prec emax false p 0).
Qed.

Lemma binary_round_sign s m e : has_sign s (binary_round prec emax s m e).
Proof.
  unfold binary_round. destruct (shl_align _ _ _) as [mz ez].
  by apply binary_round_aux_nonneg.
Qed.

Lemma binary_normalize_sign n :
  0 ≤ n → has_sign false (binary_normalize prec emax n 0 false).
Proof. destruct n; [done | intros _; apply binary_round_sign | lia]. Qed.

(** The conversion of any integer that is not negative has no sign. *)
Lemma Z2float_sign n : 0 ≤ n → has_sign false (Prim2SF (Z2float n)).
Proof.
  intros Hn%binary_normalize_sign. unfold Z2float.
  destruct (binary_normalize prec emax n 0 false) as [[]|[]| |[] m e];
    try done.
  cbn [SF2Prim]. unfold Z.ldexp. rewrite ldshiftexp_spec, of_uint63_spec.
  pose proof (to_Z_bounded (of_Z (Zpos m))) as Hm.
  pose proof (binary_normalize_sign (to_Z (of_Z (Zpos m))) ltac:(lia)) as Hs.
  destruct (binary_normalize prec emax _ 0 false) as [[]|[]| |[] m' e'];
    try done.
  cbn [SFldexp]. apply binary_round_sign.
Qed.

(** [np.sqrt] of an integer that is not below the least [int64]: a NaN
    exactly for the negative ones. *)
Lemma sqrt_Z2float_nan n :
  - 2 ^ 63 ≤ n → (is_nan (sqrt (Z2float n)) = true ↔ n < 0).
Proof.
  intros Hn. rewrite is_nan_Prim2SF, sqrt_spec.
  destruct n as [|p|p].
  - split; [|lia]. by rewrite (Z2float_nonneg 0).
  - split; [|lia].
    pose proof (SFsqrt_nonneg _ (Z2float_sign (Zpos p) ltac:(lia))) as Hq.
    by destruct (SF64sqrt _).
  - split; [lia|intros _].
    destruct (decide (Zpos p = 2 ^ 63)) as [Hp|Hp].
    + injection Hp as ->. rewrite <- sqrt_spec. by vm_compute.
    + rewrite Z2float_neg by lia. apply SFsqrt_neg.
      pose proof (binary_normalize_pos p) as Hs.
      destruct (binary_normalize prec emax (Zpos p) 0 false);
        simpl in *; by subst.
Qed.

(** *** The special values of binary64 *)

Lemma float_of_spec x s : Prim2SF x = s → x = SF2Prim s.
Proof. intros <-. by rewrite SF2Prim_Prim2SF. Qed.

Lemma is_nan_eq x : is_nan x = true → x = nan.
Proof. intros H%is_nan_Prim2SF. by apply float_of_spec in H. Qed.

Lemma is_infinity_eq x : is_infinity x = true → x = infinity ∨ x = neg_infinity.
Proof.
  unfold is_infinity. rewrite FloatAxioms.eqb_spec, abs_spec.
  change (Prim2SF infinity) with (S754_infinity false).
  destruct (Prim2SF x) as [s|s| |s m e] eqn:Hx; try done;
    try (by destruct s).
  intros _. apply float_of_spec in Hx. destruct s; auto.
Qed.

Lemma is_zero_eq x : is_zero x = true → x = zero ∨ x = neg_zero.
Proof.
  unfold is_zero. rewrite FloatAxioms.eqb_spec.
  change (Prim2SF zero) with (S754_zero false).
  destruct (Prim2SF x) as [s|s| |s m e] eqn:Hx; try done;
    try (by destruct s).
  intros _. apply float_of_spec in Hx. destruct s; auto.
Qed.

Lemma abs_one_eq x : (abs x =? one)%float = true → x = one ∨ x = (- one)%float.
Proof.
  rewrite FloatAxioms.eqb_spec, abs_spec.
  assert (Prim2SF one = S754_finite false 4503599627370496 (-52)) as ->
    by (vm_compute; reflexivity).
  set (k := 4503599627370496%positive).
  destruct (Prim2SF x) as [s|s| |s m e] eqn:Hx;
    try (intros; discriminate); try (destruct s; intros; discriminate).
  unfold SFeqb, SFabs, SFcompare.
  destruct (Z.compare_spec e (-52)) as [->| |]; [|intros; discriminate..].
  destruct (Pos.compare_cont Eq m k) eqn:Hm; [|intros; discriminate..].
  apply (Pos.compare_eq m k) in Hm. subst m k. intros _.
  apply float_of_spec in Hx.
  destruct s; [right|left]; rewrite Hx; vm_compute; reflexivity.
Qed.

Lemma SFmul_abs x : SF64mul (SFabs x) (SFabs x) = SF64mul x x.
Proof. by destruct x as [[]|[]| |[] m e]. Qed.

Lemma float_mul_abs x : (abs x * abs x = x * x)%float.
Proof. apply Prim2SF_inj. rewrite !mul_spec, abs_spec. apply SFmul_abs. Qed.

End Binary64.

(** ** [x ** 2] on a [float] *)

Lemma float_abs_opp x : abs (- x) = abs x.
Proof.
  apply Prim2SF_inj. rewrite !abs_spec, opp_spec.
  by destruct (Prim2SF x).
Qed.

Lemma float_abs_abs x : abs (abs x) = abs x.
Proof.
  apply Prim2SF_inj. rewrite !abs_spec.
  by destruct (Prim2SF x).
Qed.

Lemma is_nan_opp x : is_nan (- x) = is_nan x.
Proof.
  apply eq_true_iff_eq. rewrite !Binary64.is_nan_Prim2SF, opp_spec.
  by destruct (Prim2SF x).
Qed.

Lemma is_nan_abs x : is_nan (abs x) = is_nan x.
Proof.
  apply eq_true_iff_eq. rewrite !Binary64.is_nan_Prim2SF, abs_spec.
  by destruct (Prim2SF x).
Qed.

Lemma is_infinity_opp x : is_infinity (- x) = is_infinity x.
Proof. unfold is_infinity. by rewrite float_abs_opp. Qed.

Lemma is_infinity_abs x : is_infinity (abs x) = is_infinity x.
Proof. unfold is_infinity. by rewrite float_abs_abs. Qed.

Lemma is_zero_opp x : is_zero (- x) = is_zero x.
Proof.
  unfold is_zero. rewrite !FloatAxioms.eqb_spec, opp_spec.
  change (Prim2SF zero) with (S754_zero false).
  by destruct (Prim2SF x) as [[]|[]| |[] m e].
Qed.

(** A number that is neither a NaN nor a zero has an absolute value above
    zero. *)
Lemma abs_positive x :
  is_nan x = false → is_zero x = false → (0 <? abs x)%float = true.
Proof.
  unfold is_zero. intros Hn Hz.
  assert (Prim2SF x ≠ S754_nan) as Hn'.
  { intros Hx%Binary64.is_nan_Prim2SF. congruence. }
  rewrite FloatAxioms.eqb_spec in Hz. rewrite ltb_spec, abs_spec.
  change (Prim2SF zero) with (S754_zero false) in Hz.
  change (Prim2SF 0) with (S754_zero false).
  by destruct (Prim2SF x) as [[]|[]| |[] m e].
Qed.

Lemma infinity_not_zero x : is_infinity x = true → is_zero x = false.
Proof. by intros [-> | ->]%Binary64.is_infinity_eq. Qed.

Section float_pow2.
Context `{Libm}.

(** Past the special cases [x ** 2] is [pow] on the absolute value. *)
Lemma float_pow2_regular x :
  is_nan x = false → is_infinity x = false → is_zero x = false →
  (abs x =? one)%float = false →
  float_pow2 x =
    if adjust_erange1 (pow2 (abs x)) (pow2_range_error (abs x))
    then Raise OverflowError else Ok (pow2 (abs x)).
Proof. unfold float_pow2. by intros -> -> -> ->. Qed.

Lemma pow2_abs_accurate x :
  is_nan x = false → is_infinity x = false → is_zero x = false →
  if is_infinity (x * x) then is_infinity (pow2 (abs x)) = true
  else pow2 (abs x) = (x * x)%float ∨ pow2 (abs x) = next_down (x * x) ∨
       pow2 (abs x) = next_up (x * x).
Proof.
  intros Hn Hi Hz. rewrite <- (Binary64.float_mul_abs x).
  apply pow2_accurate; [|by apply abs_positive].
  unfold is_finite. by rewrite is_nan_abs, is_infinity_abs, Hn, Hi.
Qed.

(** The sign of [x] plays no role in [x ** 2]. *)
Lemma float_pow2_opp x : float_pow2 (- x) = float_pow2 x.
Proof.
  unfold float_pow2.
  rewrite is_nan_opp, is_infinity_opp, is_zero_opp, float_abs_opp.
  destruct (is_nan x) eqn:Hn; [|done].
  by apply Binary64.is_nan_eq in Hn as ->.
Qed.



(** The square of a finite number that is beyond the range of binary64
    is an [OverflowError]. *)
Lemma float_pow2_overflow x :
  square_overflows x = true → float_pow2 x = Raise OverflowError.
Proof.
  unfold square_overflows. intros [Hsq Hi%negb_true_iff]%andb_true_iff.
  destruct (is_nan x) eqn:Hn.
  { by apply Binary64.is_nan_eq in Hn as ->. }
  destruct (is_zero x) eqn:Hz.
  { by apply Binary64.is_zero_eq in Hz as [-> | ->]. }
  destruct (abs x =? one)%float eqn:Ho.
  { by apply Binary64.abs_one_eq in Ho as [-> | ->]. }
  rewrite float_pow2_regular by done.
  pose proof (pow2_abs_accurate x Hn Hi Hz) as Hacc. rewrite Hsq in Hacc.
  unfold adjust_erange1.
  by rewrite (infinity_not_zero _ Hacc), Hacc, Tauto.if_same.
Qed.

End float_pow2.

(** ** [Particle.__add__] step by step *)

Lemma Particle_add_run h a b ax ay az aE bx by' bz bE sx sy sz sE :
  fst (components a h) = Ok (ax, ay, az, aE) →
  fst (components b h) = Ok (bx, by', bz, bE) →
  py_add ax bx = Ok sx → py_add ay by' = Ok sy →
  py_add az bz = Ok sz → py_add aE bE = Ok sE →
  Particle___add__ a b h =
  (Ok (length h), h ++ [Object Particle (fields sx sy sz sE)]).
Proof.
  intros (oa & Ha & Hax & Hay & Haz & HaE)%components_inv
         (ob & Hb & Hbx & Hby & Hbz & HbE)%components_inv Hx Hy Hz HE.
  unfold Particle___add__.
  repeat (rewrite bind_run, (getattr_run _ _ _ _ Ha), ?Hax, ?Hay, ?Haz, ?HaE;
          rewrite bind_run, (getattr_run _ _ _ _ Hb), ?Hbx, ?Hby, ?Hbz, ?HbE;
          rewrite bind_run, lift_run, ?Hx, ?Hy, ?Hz, ?HE).
  by rewrite construct_run.
Qed.

(** Conversely, when [Particle.__add__] returns, both operands had the four
    fields and the four sums were defined. *)
Lemma Particle_add_inv h a b r :
  fst (Particle___add__ a b h) = Ok r →
  ∃ ax ay az aE bx by' bz bE sx sy sz sE,
    fst (components a h) = Ok (ax, ay, az, aE) ∧
    fst (components b h) = Ok (bx, by', bz, bE) ∧
    py_add ax bx = Ok sx ∧ py_add ay by' = Ok sy ∧
    py_add az bz = Ok sz ∧ py_add aE bE = Ok sE.
Proof.
  unfold Particle___add__, components. rewrite !bind_run.
  destruct (h !! a) as [oa|] eqn:Ha;
    [|by rewrite (getattr_dangling _ _ _ Ha)].
  destruct (h !! b) as [ob|] eqn:Hb.
  2:{ rewrite (getattr_run _ _ _ _ Ha). destruct (ob_dict oa !! "px"); [|done].
      by rewrite bind_run, (getattr_dangling _ _ _ Hb). }
  repeat (rewrite ?bind_run, ?(getattr_run _ _ _ _ Ha), ?(getattr_run _ _ _ _ Hb),
            ?lift_run;
          match goal with
          | |- context [ob_dict ?o !! ?n] =>
              destruct (ob_dict o !! n) eqn:?; [|done]
          | |- context [py_add ?x ?y] => destruct (py_add x y) eqn:?; [|done]
          end).
  intros _. simpl. eauto 20.
Qed.

(** Dispatch of [+] and of [.calc_mass()] on an instance of [Particle]. *)
Lemma isinstance_Particle h l :
  fst (isinstance l Particle h) = Ok true →
  ∃ o, h !! l = Some o ∧ lookup_method (ob_type o) "__add__" = Some Particle ∧
       lookup_method (ob_type o) "calc_mass" = Some Particle.
Proof.
  unfold isinstance, type_of. rewrite bind_run.
  destruct (h !! l) as [o|]; [|done]. simpl.
  intros [= Hc]. exists o.
  destruct (ob_type o); vm_compute in Hc; try discriminate Hc; done.
Qed.

Lemma add_Particle h a b :
  fst (isinstance a Particle h) = Ok true → add a b h = Particle___add__ a b h.
Proof.
  intros (o & Ha & Hm & _)%isinstance_Particle.
  unfold add. by rewrite bind_run, (type_of_run _ _ _ Ha), Hm.
Qed.


Lemma components_last h c px py pz E d :
  d = fields px py pz E ∨ d = <["superpower" := VInt 42]> (fields px py pz E) →
  components (length h) (h ++ [Object c d]) =
  (Ok (px, py, pz, E), h ++ [Object c d]).
Proof.
  intros Hd. destruct (fields_lookup px py pz E) as (?&?&?&?&?).
  eapply components_intro; [by apply list_lookup_middle|..];
    destruct Hd as [-> | ->]; simpl; by simplify_map_eq.
Qed.

Lemma add_new_instance h a b ax ay az aE bx by' bz bE sx sy sz sE :
  fst (isinstance a Particle h) = Ok true →
  fst (components a h) = Ok (ax, ay, az, aE) →
  fst (components b h) = Ok (bx, by', bz, bE) →
  py_add ax bx = Ok sx → py_add ay by' = Ok sy →
  py_add az bz = Ok sz → py_add aE bE = Ok sE →
  add a b h = (Ok (length h), h ++ [Object Particle (fields sx sy sz sE)]).
Proof.
  intros Ha **. rewrite (add_Particle _ _ _ Ha). by eapply Particle_add_run.
Qed.

(** ** Construction *)

(** C7: for every four values, [Particle(px, py, pz, E)] never fails (there
    is no validation: [None] is stored as well as a number), puts exactly
    these four values into the new instance, and reading the four fields
    back right away returns them unchanged. *)
Theorem construct_read_back h px py pz E :
  construct Particle [px; py; pz; E] h =
    (Ok (length h), h ++ [Object Particle (fields px py pz E)]) ∧
  (p ← construct Particle [px; py; pz; E]; components p) h =
    (Ok (px, py, pz, E), h ++ [Object Particle (fields px py pz E)]).
Proof.
  rewrite bind_run, construct_run. simpl. split; [done|].
  apply components_last. by left.
Qed.

(** ** Addition *)



(** Whatever the class of the operands, the instance that
    [Particle.__add__] returns is a [Particle]. *)
Lemma Particle_add_type h a b r h' :
  Particle___add__ a b h = (Ok r, h') → fst (type_of r h') = Ok Particle.
Proof.
  intros Hadd.
  destruct (Particle_add_inv h a b r) as
    (ax&ay&az&aE&bx&by'&bz&bE&sx&sy&sz&sE&Ha&Hb&Hx&Hy&Hz&HE);
    [by rewrite Hadd|].
  rewrite (Particle_add_run _ _ _ _ _ _ _ _ _ _ _ _ _ _ _ Ha Hb Hx Hy Hz HE)
    in Hadd.
  injection Hadd as <- <-.
  by rewrite (type_of_run _ _ _ (list_lookup_middle _ _ _ _ eq_refl)).
Qed.

(** C1: in the cell that adds two [VerboseParticle]s, the type of the sum
    is the base class [Particle], not the class of the left operand. *)
Theorem verbose_add_returns_Particle :
  fst (cell_verbose []) = Ok Particle ∧ Particle ≠ VerboseParticle.
Proof. split; [reflexivity | discriminate]. Qed.

(** C9: the sum of two [BetterParticle]s is computed without an error (as
    long as the four sums of the fields are defined), and it is an instance
    of the base class [Particle] that has the four summed fields and no
    attribute [superpower]. *)
Theorem better_add_drops_superpower h a b ax ay az aE bx by' bz bE sx sy sz sE :
  fst (type_of a h) = Ok BetterParticle →
  fst (type_of b h) = Ok BetterParticle →
  fst (components a h) = Ok (ax, ay, az, aE) →
  fst (components b h) = Ok (bx, by', bz, bE) →
  py_add ax bx = Ok sx → py_add ay by' = Ok sy →
  py_add az bz = Ok sz → py_add aE bE = Ok sE →
  ∃ h', add a b h = (Ok (length h), h') ∧
        fst (type_of (length h) h') = Ok Particle ∧
        fst (components (length h) h') = Ok (sx, sy, sz, sE) ∧
        fst (getattr (length h) "superpower" h') = Raise AttributeError.
Proof.
  intros Hta _ Ha Hb Hx Hy Hz HE.
  assert (fst (isinstance a Particle h) = Ok true) as Hi.
  { unfold isinstance. rewrite bind_run.
    destruct (type_of a h) as [[c|e] h1]; simpl in *; by simplify_eq. }
  eexists. split; [by eapply add_new_instance|].
  pose proof (list_lookup_middle h [] (Object Particle (fields sx sy sz sE)) _
                eq_refl) as Hl.
  split; [by rewrite (type_of_run _ _ _ Hl)|].
  split; [rewrite (components_last _ _ sx sy sz sE); [done | by left]|].
  rewrite (getattr_run _ _ _ _ Hl). simpl.
  by destruct (fields_lookup sx sy sz sE) as (_&_&_&_&->).
Qed.

Lemma better_add_drops_superpower_witness :
  fst (type_of 0 heap_better12) = Ok BetterParticle ∧
  fst (type_of 1 heap_better12) = Ok BetterParticle ∧
  fst (components 0 heap_better12) = Ok (VInt 10, VInt 20, VInt 30, VInt 100) ∧
  fst (components 1 heap_better12) = Ok (VInt 50, VInt 10, VInt 20, VInt 200) ∧
  fst (getattr 0 "superpower" heap_better12) = Ok (VInt 42) ∧
  fst (getattr 1 "superpower" heap_better12) = Ok (VInt 42) ∧
  ∃ h', add 0 1 heap_better12 = (Ok 2%nat, h') ∧
        fst (type_of 2 h') = Ok Particle ∧
        fst (components 2 h') = Ok (VInt 60, VInt 30, VInt 50, VInt 300) ∧
        fst (getattr 2 "superpower" h') = Raise AttributeError.
Proof.
  repeat (split; [reflexivity|]).
  apply (better_add_drops_superpower heap_better12 0 1
           (VInt 10) (VInt 20) (VInt 30) (VInt 100)
           (VInt 50) (VInt 10) (VInt 20) (VInt 200)); reflexivity.
Defined.

(** ** No operation writes to its operands *)

Lemma getattr_cases h l name :
  (∃ v, getattr l name h = (Ok v, h)) ∨ (∃ e, getattr l name h = (Raise e, h)).
Proof.
  unfold getattr. destruct (h !! l) as [o|]; [|eauto].
  destruct (ob_dict o !! name); eauto.
Qed.

Lemma type_of_cases h l :
  (∃ o, h !! l = Some o ∧ type_of l h = (Ok (ob_type o), h)) ∨
  (h !! l = None ∧ type_of l h = (Raise InvalidReference, h)).
Proof. unfold type_of. destruct (h !! l) as [o|]; eauto. Qed.

Ltac step_getattr h :=
  rewrite bind_run;
  match goal with
  | |- context [getattr ?l ?n h] =>
      let Hg := fresh "Hg" in
      destruct (getattr_cases h l n) as [[? Hg] | [? Hg]]; rewrite Hg; [|done]
  end.

Lemma Particle_calc_mass_heap `{Libm} h p : snd (Particle_calc_mass p h) = h.
Proof. unfold Particle_calc_mass. do 4 step_getattr h. done. Qed.

Lemma SimpleParticle_calc_mass_heap `{Libm} h p : snd (SimpleParticle_calc_mass p h) = h.
Proof. unfold SimpleParticle_calc_mass. do 4 step_getattr h. done. Qed.

Lemma call_calc_mass_heap `{Libm} h p : snd (call_calc_mass p h) = h.
Proof.
  unfold call_calc_mass. rewrite bind_run.
  destruct (type_of_cases h p) as [(o & _ & ->) | [_ ->]]; [|done].
  destruct (lookup_method _ _) as [[]|];
    auto using Particle_calc_mass_heap, SimpleParticle_calc_mass_heap.
Qed.

(** When [Particle.__add__] raises, it has not touched the heap. *)
Lemma Particle_add_raise h a b e :
  fst (Particle___add__ a b h) = Raise e → snd (Particle___add__ a b h) = h.
Proof.
  unfold Particle___add__.
  do 4 (do 2 step_getattr h; rewrite bind_run, lift_run;
        match goal with |- context [py_add ?x ?y] => destruct (py_add x y) end;
        [|done]).
  by rewrite construct_run.
Qed.

(** When it returns, it has appended one instance, and both operands were
    in the heap. *)
Lemma Particle_add_heap h a b :
  snd (Particle___add__ a b h) = h ∨
  (∃ o, snd (Particle___add__ a b h) = h ++ [o]) ∧
    is_Some (h !! a) ∧ is_Some (h !! b).
Proof.
  destruct (fst (Particle___add__ a b h)) as [r|e] eqn:Hr.
  - right.
    destruct (Particle_add_inv h a b r Hr) as
      (ax&ay&az&aE&bx&by'&bz&bE&sx&sy&sz&sE&Ha&Hb&Hx&Hy&Hz&HE).
    rewrite (Particle_add_run _ _ _ _ _ _ _ _ _ _ _ _ _ _ _ Ha Hb Hx Hy Hz HE).
    apply components_inv in Ha as (oa & -> & _), Hb as (ob & -> & _).
    simpl. eauto.
  - left. by eapply Particle_add_raise.
Qed.

Lemma add_heap h a b :
  snd (add a b h) = h ∨
  (∃ o, snd (add a b h) = h ++ [o]) ∧ is_Some (h !! a) ∧ is_Some (h !! b).
Proof.
  unfold add. rewrite bind_run.
  destruct (type_of_cases h a) as [(o & _ & ->) | [_ ->]]; [|by left].
  destruct (lookup_method _ _) as [[]|]; try by left.
  apply Particle_add_heap.
Qed.

Lemma components_app h k p :
  is_Some (h !! p) → fst (components p (h ++ k)) = fst (components p h).
Proof.
  intros [o Hp]. unfold components.
  pose proof (lookup_app_l_Some _ k _ _ Hp) as Hp'.
  repeat (rewrite !bind_run, (getattr_run _ _ _ _ Hp), (getattr_run _ _ _ _ Hp');
          destruct (ob_dict o !! _); [|done]).
  done.
Qed.

(** C8: [a.calc_mass()] leaves the whole heap as it was, and [a + b] only
    appends to it (the new instance, when there is one): the fields of both
    operands read the same before and after. *)
Theorem operations_leave_operands_unchanged `{Libm} h a b :
  snd (call_calc_mass a h) = h ∧
  (∃ k, snd (add a b h) = h ++ k) ∧
  fst (components a (snd (add a b h))) = fst (components a h) ∧
  fst (components b (snd (add a b h))) = fst (components b h).
Proof.
  split; [apply call_calc_mass_heap|].
  destruct (add_heap h a b) as [-> | ([o ->] & Ha & Hb)].
  - split; [exists []; by rewrite app_nil_r | done].
  - split; [by eexists | by rewrite !components_app].
Qed.

(** ** Commutativity and associativity of the addition *)

Lemma SFadd_comm x y : SF64add x y = SF64add y x.
Proof.
  unfold SF64add, SFadd.
  destruct x as [sx|sx| |sx mx ex], y as [sy|sy| |sy my ey]; try reflexivity.
  - by destruct sx, sy.
  - by destruct sx, sy.
  - by rewrite (Z.min_comm ex ey), Z.add_comm.
Qed.

Lemma float_add_comm (x y : float) : (x + y = y + x)%float.
Proof. apply Prim2SF_inj. rewrite !add_spec. apply SFadd_comm. Qed.

Lemma py_add_comm a b : py_add a b = py_add b a.
Proof.
  unfold py_add, arith.
  destruct a as [m|x| |f], b as [n|y| |g]; try reflexivity.
  - by rewrite Z.add_comm.
  - destruct (int_to_float m); simpl; [|done]. by rewrite float_add_comm.
  - destruct (int_to_float n); simpl; [|done]. by rewrite float_add_comm.
  - by rewrite float_add_comm.
Qed.

Lemma isinstance_app h k l c :
  fst (isinstance l c h) = Ok true → fst (isinstance l c (h ++ k)) = Ok true.
Proof.
  unfold isinstance. rewrite !bind_run.
  destruct (type_of_cases h l) as [(o & Hl & ->) | [_ ->]]; [|done].
  by rewrite (type_of_run _ _ _ (lookup_app_l_Some _ k _ _ Hl)).
Qed.

Lemma isinstance_last h d :
  fst (isinstance (length h) Particle (h ++ [Object Particle d])) = Ok true.
Proof.
  unfold isinstance.
  by rewrite bind_run, (type_of_run _ _ _ (list_lookup_middle _ _ _ _ eq_refl)).
Qed.

Lemma sum_components_run h a b ax ay az aE bx by' bz bE sx sy sz sE :
  fst (isinstance a Particle h) = Ok true →
  fst (components a h) = Ok (ax, ay, az, aE) →
  fst (components b h) = Ok (bx, by', bz, bE) →
  py_add ax bx = Ok sx → py_add ay by' = Ok sy →
  py_add az bz = Ok sz → py_add aE bE = Ok sE →
  fst (sum_components a b h) = Ok (sx, sy, sz, sE).
Proof.
  intros. unfold sum_components.
  erewrite bind_ok by by eapply add_new_instance.
  rewrite (components_last _ _ sx sy sz sE); [done | by left].
Qed.

(** The sum of the two orders: the same fields are read, the same four
    sums are taken, and the first thing that fails fails in both. *)
Lemma sum_components_comm h a b :
  fst (isinstance a Particle h) = Ok true →
  fst (isinstance b Particle h) = Ok true →
  fst (sum_components a b h) = fst (sum_components b a h).
Proof.
  intros Hia Hib. unfold sum_components.
  rewrite !bind_run, (add_Particle _ _ _ Hia), (add_Particle _ _ _ Hib).
  apply isinstance_Particle in Hia as (oa & Ha & _).
  apply isinstance_Particle in Hib as (ob & Hb & _).
  unfold Particle___add__.
  repeat (rewrite ?bind_run, ?(getattr_run _ _ _ _ Ha), ?(getattr_run _ _ _ _ Hb),
            ?lift_run;
          match goal with
          | H : ob_dict ?o !! ?n = _ |- context [ob_dict ?o !! ?n] => rewrite H
          | |- context [ob_dict ?o !! ?n] => destruct (ob_dict o !! n) eqn:?
          | H : py_add ?x ?y = _ |- context [py_add ?x ?y] => rewrite H
          | H : py_add ?x ?y = _ |- context [py_add ?y ?x] =>
              rewrite (py_add_comm y x), H
          | |- context [py_add ?x ?y] => destruct (py_add x y) eqn:?
          end; try done).
Qed.

Lemma sum_left_run h (a b c : nat) ax ay az aE bx by' bz bE cx cy cz cE
    sx sy sz sE tx ty tz tE :
  fst (isinstance a Particle h) = Ok true →
  fst (components a h) = Ok (ax, ay, az, aE) →
  fst (components b h) = Ok (bx, by', bz, bE) →
  fst (components c h) = Ok (cx, cy, cz, cE) →
  py_add ax bx = Ok sx → py_add ay by' = Ok sy →
  py_add az bz = Ok sz → py_add aE bE = Ok sE →
  py_add sx cx = Ok tx → py_add sy cy = Ok ty →
  py_add sz cz = Ok tz → py_add sE cE = Ok tE →
  fst (sum_left a b c h) = Ok (tx, ty, tz, tE).
Proof.
  intros Hi Ha Hb Hc **. unfold sum_left.
  erewrite bind_ok by by eapply add_new_instance.
  apply (sum_components_run _ _ _ sx sy sz sE cx cy cz cE); try done.
  - apply isinstance_last.
  - rewrite (components_last _ _ sx sy sz sE); [done | by left].
  - rewrite components_app; [done|].
    by apply components_inv in Hc as (o & -> & _).
Qed.

Lemma sum_right_run h (a b c : nat) ax ay az aE bx by' bz bE cx cy cz cE
    sx sy sz sE tx ty tz tE :
  fst (isinstance a Particle h) = Ok true →
  fst (isinstance b Particle h) = Ok true →
  fst (components a h) = Ok (ax, ay, az, aE) →
  fst (components b h) = Ok (bx, by', bz, bE) →
  fst (components c h) = Ok (cx, cy, cz, cE) →
  py_add bx cx = Ok sx → py_add by' cy = Ok sy →
  py_add bz cz = Ok sz → py_add bE cE = Ok sE →
  py_add ax sx = Ok tx → py_add ay sy = Ok ty →
  py_add az sz = Ok tz → py_add aE sE = Ok tE →
  fst (sum_right a b c h) = Ok (tx, ty, tz, tE).
Proof.
  intros Hia Hib Ha Hb Hc **. unfold sum_right.
  erewrite bind_ok by by eapply add_new_instance.
  apply (sum_components_run _ _ _ ax ay az aE sx sy sz sE); try done.
  - by apply isinstance_app.
  - rewrite components_app; [done|].
    by apply components_inv in Ha as (o & -> & _).
  - rewrite (components_last _ _ sx sy sz sE); [done | by left].
Qed.

(** C6, as stated, fails on [float] fields: with [px] equal to [0.1], [0.2]
    and [0.3] the two groupings differ in the last bit
    ([0.6000000000000001] and [0.6]). *)
Lemma float_add_not_associative :
  fst (sum_left 0 1 2 heap_float123) ≠ fst (sum_right 0 1 2 heap_float123).
Proof.
  intros H.
  apply (f_equal (λ r, match r with
                       | Ok (VFloat x, _, _, _) => (x =? 0.6)%float
                       | _ => false
                       end)) in H.
  vm_compute in H. discriminate H.
Qed.

(** C6 (amended): the components of [a + b] and of [b + a] are the same for
    all instances of [Particle], whatever their fields; the components of
    [(a + b) + c] and of [a + (b + c)] are the same when the fields are
    [int]s, whose addition is exact. *)
Theorem add_comm_and_int_assoc :
  (∀ h a b,
     fst (isinstance a Particle h) = Ok true →
     fst (isinstance b Particle h) = Ok true →
     fst (sum_components a b h) = fst (sum_components b a h)) ∧
  (∀ h (a b c : nat) (ax ay az aE bx by' bz bE cx cy cz cE : Z),
     fst (isinstance a Particle h) = Ok true →
     fst (isinstance b Particle h) = Ok true →
     fst (components a h) = Ok (VInt ax, VInt ay, VInt az, VInt aE) →
     fst (components b h) = Ok (VInt bx, VInt by', VInt bz, VInt bE) →
     fst (components c h) = Ok (VInt cx, VInt cy, VInt cz, VInt cE) →
     fst (sum_left a b c h) = fst (sum_right a b c h) ∧
     fst (sum_left a b c h) =
       Ok (VInt (ax + bx + cx), VInt (ay + by' + cy),
           VInt (az + bz + cz), VInt (aE + bE + cE))).
Proof.
  split; [apply sum_components_comm|].
  intros h a b c ax ay az aE bx by' bz bE cx cy cz cE Hia Hib Ha Hb Hc.
  rewrite (sum_left_run _ _ _ _ _ _ _ _ _ _ _ _ _ _ _ _
             (VInt (ax + bx)) (VInt (ay + by')) (VInt (az + bz)) (VInt (aE + bE))
             (VInt (ax + bx + cx)) (VInt (ay + by' + cy))
             (VInt (az + bz + cz)) (VInt (aE + bE + cE)) Hia Ha Hb Hc);
    try reflexivity.
  rewrite (sum_right_run _ _ _ _ _ _ _ _ _ _ _ _ _ _ _ _
             (VInt (bx + cx)) (VInt (by' + cy)) (VInt (bz + cz)) (VInt (bE + cE))
             (VInt (ax + bx + cx)) (VInt (ay + by' + cy))
             (VInt (az + bz + cz)) (VInt (aE + bE + cE)) Hia Hib Ha Hb Hc);
    try reflexivity; [done | unfold py_add, arith; by rewrite Z.add_assoc ..].
Qed.

Lemma add_comm_and_int_assoc_witness :
  (fst (isinstance 0 Particle heap_float123) = Ok true ∧
   fst (isinstance 1 Particle heap_float123) = Ok true ∧
   fst (sum_components 0 1 heap_float123) =
   fst (sum_components 1 0 heap_float123)) ∧
  (fst (isinstance 0 Particle heap_int123) = Ok true ∧
   fst (isinstance 1 Particle heap_int123) = Ok true ∧
   fst (components 0 heap_int123) = Ok (VInt 10, VInt 20, VInt 30, VInt 100) ∧
   fst (components 1 heap_int123) = Ok (VInt 50, VInt 10, VInt 20, VInt 200) ∧
   fst (components 2 heap_int123) = Ok (VInt 1, VInt 2, VInt 3, VInt 4) ∧
   fst (sum_left 0 1 2 heap_int123) = fst (sum_right 0 1 2 heap_int123) ∧
   fst (sum_left 0 1 2 heap_int123) =
     Ok (VInt 61, VInt 32, VInt 53, VInt 304)).
Proof.
  split.
  - split; [reflexivity|]. split; [reflexivity|].
    apply (proj1 add_comm_and_int_assoc heap_float123 0%nat 1%nat); reflexivity.
  - do 5 (split; [reflexivity|]).
    apply (proj2 add_comm_and_int_assoc heap_int123 0%nat 1%nat 2%nat
             10 20 30 100 50 10 20 200 1 2 3 4); reflexivity.
Defined.

(** ** The mass *)

Lemma Particle_calc_mass_run `{Libm} h p px py pz E :
  fst (components p h) = Ok (px, py, pz, E) →
  Particle_calc_mass p h = (calc_mass_simple px py pz E, h).
Proof.
  intros (o & Hp & Hx & Hy & Hz & HE)%components_inv. unfold Particle_calc_mass.
  repeat (rewrite bind_run, (getattr_run _ _ _ _ Hp), ?Hx, ?Hy, ?Hz, ?HE).
  reflexivity.
Qed.

Lemma SimpleParticle_calc_mass_run `{Libm} h p px py pz E :
  fst (components p h) = Ok (px, py, pz, E) →
  SimpleParticle_calc_mass p h = (calc_mass_simple px py pz E, h).
Proof.
  intros (o & Hp & Hx & Hy & Hz & HE)%components_inv.
  unfold SimpleParticle_calc_mass.
  repeat (rewrite bind_run, (getattr_run _ _ _ _ Hp), ?Hx, ?Hy, ?Hz, ?HE).
  reflexivity.
Qed.

(** On [int] fields the whole radicand is computed exactly. *)
Lemma calc_mass_simple_int `{Libm} (px py pz E : Z) :
  calc_mass_simple (VInt px) (VInt py) (VInt pz) (VInt E) =
  np_sqrt (VInt (E ^ 2 - (px ^ 2 + py ^ 2 + pz ^ 2))).
Proof. reflexivity. Qed.






(** ** The cell [e1] *)

(** [41.234227 ** 2] is, with every library, one of three numbers next to
    [1700.2614762875287], and no error. *)
Lemma float_pow2_e1 `{Libm} :
  ∃ y, float_pow2 41.234227%float = Ok y ∧
       (y = 1700.2614762875287 ∨ y = next_down 1700.2614762875287 ∨
        y = next_up 1700.2614762875287)%float.
Proof.
  rewrite float_pow2_regular by reflexivity.
  pose proof (pow2_abs_accurate 41.234227%float eq_refl eq_refl eq_refl) as Hacc.
  change (is_infinity (41.234227 * 41.234227)%float) with false in Hacc.
  change (41.234227 * 41.234227)%float with 1700.2614762875287%float in Hacc.
  cbv iota in Hacc.
  pose proof (pow2_range (abs 41.234227%float)) as Hr.
  unfold adjust_erange1.
  destruct (pow2_range_error (abs 41.234227%float)).
  - specialize (Hr eq_refl).
    destruct Hacc as [Hy|[Hy|Hy]]; rewrite Hy in Hr;
      vm_compute in Hr; by destruct Hr.
  - destruct Hacc as [Hy|[Hy|Hy]]; rewrite Hy; eauto.
Qed.

(** The mass of [e1]: the same three numbers less [1700], then the root. *)
Lemma cell_e1_value `{Libm} :
  ∃ x, cell_e1 = Ok (VFloat x) ∧ is_nan x = false ∧
       (0.5113 <? x)%float = true ∧ (x <? 0.5114)%float = true.
Proof.
  destruct float_pow2_e1 as (y & Hy & Hcases).
  assert (cell_e1 = Ok (VFloat (sqrt (y - 1700)%float))) as ->.
  { unfold cell_e1, make_particle, getitem, call, calc_mass, getitem.
    simplify_map_eq. by rewrite Hy. }
  eexists. split; [done|].
  destruct Hcases as [-> | [-> | ->]]; repeat split; vm_compute; reflexivity.
Qed.

(** C4, as stated, fails: on [(20, 30, 20, 41.234227)] the mass is neither
    an exception nor a not-a-number. *)
Lemma e1_mass_is_a_number : error_or_nan cell_e1 ≠ true.
Proof.
  destruct cell_e1_value as (x & -> & Hnan & _). simpl. by rewrite Hnan.
Qed.

(** C4 (amended): on [(20, 30, 20, 41.234227)] the radicand
    [41.234227 ** 2 - 1700] is positive (already for the decimal numbers:
    [41.234227 ^ 2 > 1700]), so that the mass is an ordinary number, between
    [0.5113] and [0.5114]; nothing is raised. *)
Theorem e1_mass_value `{Libm} :
  41234227 ^ 2 > 1700 * (10 ^ 6) ^ 2 ∧
  ∃ x, cell_e1 = Ok (VFloat x) ∧ is_nan x = false ∧
       (0.5113 <? x)%float = true ∧ (x <? 0.5114)%float = true.
Proof. split; [reflexivity | apply cell_e1_value]. Qed.

(** ** The four versions of the mass *)

Lemma py_pow2_number `{Libm} v : is_number v = true → number_or_overflow (py_pow2 v).
Proof.
  destruct v as [n|x| |f]; try done. intros _. simpl. unfold float_pow2.
  repeat case_match; done.
Qed.

Lemma arith_number iop fop a b :
  is_number a = true → is_number b = true →
  number_or_overflow (arith iop fop a b).
Proof.
  destruct a as [m|x| |f], b as [n|y| |g]; try done; intros _ _; simpl.
  - unfold int_to_float. by case_match.
  - unfold int_to_float. by case_match.
Qed.

Lemma calc_mass_dict `{Libm} px py pz E :
  calc_mass (particle_dict px py pz E) =
  (px2 ← py_pow2 px; py2 ← py_pow2 py; s ← py_add px2 py2;
   pz2 ← py_pow2 pz; momentum ← py_add s pz2; E2 ← py_pow2 E;
   radicand ← py_sub E2 momentum; np_sqrt radicand).
Proof.
  unfold calc_mass, getitem, particle_dict. by simplify_map_eq.
Qed.

Ltac case_result :=
  match goal with
  | |- context [py_pow2 ?v] => destruct (py_pow2 v) eqn:?
  | |- context [py_add ?a ?b] => destruct (py_add a b) eqn:?
  | |- context [py_sub ?a ?b] => destruct (py_sub a b) eqn:?
  end; simpl.

Lemma calc_mass_dict_returned `{Libm} px py pz E :
  returned (calc_mass (particle_dict px py pz E)) =
  returned (calc_mass_simple px py pz E).
Proof.
  rewrite calc_mass_dict. unfold calc_mass_simple.
  repeat case_result; done.
Qed.

Ltac case_number :=
  match goal with
  | |- context [py_pow2 ?v] =>
      let H := fresh in
      pose proof (py_pow2_number v ltac:(assumption)) as H;
      destruct (py_pow2 v); simpl in H; [|subst]
  | |- context [py_add ?a ?b] =>
      let H := fresh in
      pose proof (arith_number Z.add PrimFloat.add a b
                    ltac:(assumption) ltac:(assumption)) as H;
      fold py_add in H; destruct (py_add a b); simpl in H; [|subst]
  | |- context [py_sub ?a ?b] =>
      let H := fresh in
      pose proof (arith_number Z.sub PrimFloat.sub a b
                    ltac:(assumption) ltac:(assumption)) as H;
      fold py_sub in H; destruct (py_sub a b); simpl in H; [|subst]
  end; simpl.

Lemma calc_mass_dict_number `{Libm} px py pz E :
  is_number px = true → is_number py = true →
  is_number pz = true → is_number E = true →
  calc_mass (particle_dict px py pz E) = calc_mass_simple px py pz E.
Proof.
  intros. rewrite calc_mass_dict. unfold calc_mass_simple.
  repeat case_number; done.
Qed.

Lemma construct_calc_mass `{Libm} c h px py pz E :
  c = SimpleParticle ∨ c = Particle →
  fst ((p ← construct c [px; py; pz; E]; call_calc_mass p) h) =
  calc_mass_simple px py pz E.
Proof.
  intros Hc. rewrite bind_run, construct_run.
  assert (c ≠ BetterParticle) by (by destruct Hc as [-> | ->]).
  rewrite decide_False by done.
  pose proof (components_last h c px py pz E _ (or_introl eq_refl)) as Hf.
  apply (f_equal fst) in Hf. simpl in Hf.
  unfold call_calc_mass.
  rewrite bind_run, (type_of_run _ _ _ (list_lookup_middle _ _ _ _ eq_refl)).
  destruct Hc as [-> | ->]; simpl.
  - by rewrite (SimpleParticle_calc_mass_run _ _ _ _ _ _ Hf).
  - by rewrite (Particle_calc_mass_run _ _ _ _ _ _ Hf).
Qed.

(** C10: for every four values the function [calc_mass_simple], the method
    of a new [SimpleParticle] and the method of a new [Particle] have the
    same outcome, and the dict-based [calc_mass] returns the same value
    whenever one of them returns; on numbers its outcome is the same
    altogether. *)
Theorem mass_implementations_agree `{Libm} h px py pz E :
  returned (calc_mass (particle_dict px py pz E)) =
    returned (calc_mass_simple px py pz E) ∧
  (is_number px = true → is_number py = true →
   is_number pz = true → is_number E = true →
   calc_mass (particle_dict px py pz E) = calc_mass_simple px py pz E) ∧
  fst ((p ← construct SimpleParticle [px; py; pz; E]; call_calc_mass p) h) =
    calc_mass_simple px py pz E ∧
  fst ((p ← construct Particle [px; py; pz; E]; call_calc_mass p) h) =
    calc_mass_simple px py pz E.
Proof.
  split; [apply calc_mass_dict_returned|].
  split; [apply calc_mass_dict_number|].
  split; apply construct_calc_mass; auto.
Qed.

Lemma mass_implementations_agree_witness :
  is_number (VInt 10) = true ∧ is_number (VInt 20) = true ∧
  is_number (VInt 30) = true ∧ is_number (VFloat 100) = true ∧
  calc_mass (particle_dict (VInt 10) (VInt 20) (VInt 30) (VFloat 100)) =
    calc_mass_simple (VInt 10) (VInt 20) (VInt 30) (VFloat 100) ∧
  calc_mass_simple (VInt 10) (VInt 20) (VInt 30) (VFloat 100) =
    Ok (VFloat (sqrt 8600)).
Proof.
  do 4 (split; [reflexivity|]). split; [|reflexivity].
  apply (proj1 (proj2 (mass_implementations_agree []
           (VInt 10) (VInt 20) (VInt 30) (VFloat 100)))); reflexivity.
Defined.

(** ** When the mass is an error or a not-a-number *)

(** [1e200 ** 2] is beyond binary64, with every library. *)
Lemma calc_mass_simple_overflow `{Libm} :
  calc_mass_simple (VInt 0) (VInt 0) (VInt 0) (VFloat 1e200) = Raise OverflowError.
Proof.
  unfold calc_mass_simple, py_pow2.
  by rewrite (float_pow2_overflow 1e200%float eq_refl).
Qed.

(** C5, as stated, fails: with [E = 1e200] and no momentum the radicand is
    not negative, and yet [E ** 2] raises [OverflowError]. *)
Lemma overflow_without_negative_radicand :
  ¬ (error_or_nan (calc_mass_simple (VInt 0) (VInt 0) (VInt 0) (VFloat 1e200)) = true
     ↔ radicand_negative (VInt 0) (VInt 0) (VInt 0) (VFloat 1e200) = Some true).
Proof.
  rewrite calc_mass_simple_overflow.
  assert (radicand_negative (VInt 0) (VInt 0) (VInt 0) (VFloat 1e200) =
          Some false) as -> by (by vm_compute).
  intros [H _]. by specialize (H eq_refl).
Qed.

(** Another input of that kind, with [int] fields only: numpy has no
    64-bit integer for the radicand [2 ** 64]. *)
Lemma type_error_without_negative_radicand `{Libm} :
  calc_mass_simple (VInt 0) (VInt 0) (VInt 0) (VInt (2 ^ 32)) = Raise TypeError ∧
  radicand_negative (VInt 0) (VInt 0) (VInt 0) (VInt (2 ^ 32)) = Some false.
Proof. split; by vm_compute. Qed.

(** C5 (amended): on [int] fields, with the exact radicand
    [r = E^2 - (px^2 + py^2 + pz^2)], the mass is an exception or a
    not-a-number if and only if [r] is negative or does not fit into 64
    bits; for [- 2^63 ≤ r < 2^64] nothing is raised, and the result is a
    not-a-number if and only if [E^2 < px^2 + py^2 + pz^2]. *)
Theorem calc_mass_int_error_or_nan `{Libm} (px py pz E : Z) :
  let r := E ^ 2 - (px ^ 2 + py ^ 2 + pz ^ 2) in
  (error_or_nan (calc_mass_simple (VInt px) (VInt py) (VInt pz) (VInt E)) = true
   ↔ r < 0 ∨ 2 ^ 64 ≤ r) ∧
  (- 2 ^ 63 ≤ r < 2 ^ 64 →
   ∃ x, calc_mass_simple (VInt px) (VInt py) (VInt pz) (VInt E) = Ok (VFloat x) ∧
        (is_nan x = true ↔ E ^ 2 < px ^ 2 + py ^ 2 + pz ^ 2)).
Proof.
  intros r. rewrite calc_mass_simple_int. fold r. unfold np_sqrt.
  destruct (Z.leb_spec (- 2 ^ 63) r) as [Hlo|Hlo];
    destruct (Z.ltb_spec r (2 ^ 64)) as [Hhi|Hhi]; simpl.
  - pose proof (Binary64.sqrt_Z2float_nan r Hlo) as Hnan. split.
    + rewrite Hnan. lia.
    + intros _. eexists. split; [done|]. rewrite Hnan. unfold r. lia.
  - split; [|lia]. split; [lia|done].
  - split; [|lia]. split; [lia|done].
  - lia.
Qed.

Lemma calc_mass_int_error_or_nan_witness :
  (- 2 ^ 63 ≤ 100 ^ 2 - (10 ^ 2 + 20 ^ 2 + 30 ^ 2) < 2 ^ 64 ∧
   ∃ x, calc_mass_simple (VInt 10) (VInt 20) (VInt 30) (VInt 100) = Ok (VFloat x) ∧
        (is_nan x = true ↔ 100 ^ 2 < 10 ^ 2 + 20 ^ 2 + 30 ^ 2)) ∧
  (- 2 ^ 63 ≤ 2 ^ 2 - (3 ^ 2 + 0 ^ 2 + 0 ^ 2) < 2 ^ 64 ∧
   ∃ x, calc_mass_simple (VInt 3) (VInt 0) (VInt 0) (VInt 2) = Ok (VFloat x) ∧
        (is_nan x = true ↔ 2 ^ 2 < 3 ^ 2 + 0 ^ 2 + 0 ^ 2)).
Proof.
  split; (split; [lia|]).
  - apply (proj2 (calc_mass_int_error_or_nan 10 20 30 100)). lia.
  - apply (proj2 (calc_mass_int_error_or_nan 3 0 0 2)). lia.
Defined.

(** * Further properties of the first notebook *)

(** ** The mass as a function of four numbers *)






(** ** Symmetries of the mass *)

Lemma py_pow2_negate `{Libm} v : py_pow2 (negate v) = py_pow2 v.
Proof.
  destruct v as [n|x| |f]; simpl; try done.
  - f_equal. f_equal. lia.
  - by rewrite float_pow2_opp.
Qed.

Lemma py_pow2_flip `{Libm} b v : py_pow2 (flip b v) = py_pow2 v.
Proof. destruct b; [apply py_pow2_negate | done]. Qed.

(** X2: the mass does not depend on the sign of any of the four numbers:
    flipping the sign of [px], [py], [pz] or [E], in any combination,
    gives the same outcome, for [int]s and for [float]s. *)
Theorem calc_mass_simple_sign `{Libm} (sx sy sz sE : bool) px py pz E :
  calc_mass_simple (flip sx px) (flip sy py) (flip sz pz) (flip sE E) =
  calc_mass_simple px py pz E.
Proof. unfold calc_mass_simple. by rewrite !py_pow2_flip. Qed.

(** X3: the mass is symmetric in [px] and [py]: on numbers the outcome is
    the same after swapping them, and on arbitrary values the returned
    value is; on [int]s, whose sums are exact, every reordering of the
    three momentum components gives the same outcome. *)
Theorem calc_mass_simple_swap `{Libm} :
  (∀ px py pz E,
     returned (calc_mass_simple py px pz E) =
     returned (calc_mass_simple px py pz E)) ∧
  (∀ px py pz E,
     is_number px = true → is_number py = true →
     is_number pz = true → is_number E = true →
     calc_mass_simple py px pz E = calc_mass_simple px py pz E) ∧
  (∀ px py pz E : Z,
     calc_mass_simple (VInt pz) (VInt py) (VInt px) (VInt E) =
       calc_mass_simple (VInt px) (VInt py) (VInt pz) (VInt E) ∧
     calc_mass_simple (VInt px) (VInt pz) (VInt py) (VInt E) =
       calc_mass_simple (VInt px) (VInt py) (VInt pz) (VInt E)).
Proof.
  split; [|split].
  - intros px py pz E. unfold calc_mass_simple.
    destruct (py_pow2 E) as [E2|]; [simpl|done].
    destruct (py_pow2 px) as [px2|], (py_pow2 py) as [py2|]; simpl; try done.
    by rewrite (py_add_comm py2 px2).
  - intros px py pz E Hx Hy Hz HE. unfold calc_mass_simple.
    pose proof (py_pow2_number E HE) as H1.
    destruct (py_pow2 E) as [E2|]; simpl in *; [|done].
    pose proof (py_pow2_number px Hx) as H2.
    pose proof (py_pow2_number py Hy) as H3.
    destruct (py_pow2 px) as [px2|], (py_pow2 py) as [py2|];
      simpl in *; subst; try done.
    by rewrite (py_add_comm py2 px2).
  - intros px py pz E. rewrite !calc_mass_simple_int.
    split; do 2 f_equal; lia.
Qed.

Lemma calc_mass_simple_swap_witness :
  is_number (VFloat 0.1) = true ∧ is_number (VInt 2) = true ∧
  is_number (VFloat 0.3) = true ∧ is_number (VInt 4) = true ∧
  calc_mass_simple (VInt 2) (VFloat 0.1) (VFloat 0.3) (VInt 4) =
  calc_mass_simple (VFloat 0.1) (VInt 2) (VFloat 0.3) (VInt 4).
Proof.
  do 4 (split; [reflexivity|]).
  apply (proj1 (proj2 calc_mass_simple_swap)); reflexivity.
Defined.

(** With [float]s the first two squares are added first, so that swapping
    [px] and [pz] can change the last bits of the mass (here with the
    library [correctly_rounded]; two of the squares are exact, and the
    third one, [134217729 ** 2], is a quarter of a unit in the last place
    away from its rounded value). *)
Example calc_mass_simple_swap_float :
  calc_mass_simple (VFloat 134217728) (VFloat 1.5) (VFloat 1.5) (VFloat 134217729) ≠
  calc_mass_simple (VFloat 1.5) (VFloat 1.5) (VFloat 134217728) (VFloat 134217729).
Proof.
  intros H.
  apply (f_equal (λ r, match r with
                       | Ok (VFloat x) => (x * x <? 268435450)%float
                       | _ => false
                       end)) in H.
  vm_compute in H. discriminate H.
Qed.

(** ** Particles as dicts *)

Lemma calc_mass_unfold `{Libm} d :
  calc_mass d =
  (px ← getitem d "px"; px2 ← py_pow2 px;
   py ← getitem d "py"; py2 ← py_pow2 py; s ← py_add px2 py2;
   pz ← getitem d "pz"; pz2 ← py_pow2 pz; momentum ← py_add s pz2;
   E ← getitem d "E"; E2 ← py_pow2 E;
   radicand ← py_sub E2 momentum; np_sqrt radicand).
Proof. reflexivity. Qed.

Lemma calc_mass_present `{Libm} d px py pz E :
  d !! "px" = Some px → d !! "py" = Some py →
  d !! "pz" = Some pz → d !! "E" = Some E →
  calc_mass d = calc_mass (particle_dict px py pz E).
Proof.
  intros Hx Hy Hz HE. rewrite calc_mass_dict, calc_mass_unfold.
  unfold getitem. by rewrite Hx, Hy, Hz, HE.
Qed.

(** X4: the dict-based [calc_mass] reads the entries ['px'], ['py'], ['pz']
    and ['E'] and nothing else: two dicts that agree on these four keys
    (whatever else they hold, such as the entry ['mass']) have the same
    outcome. *)
Theorem calc_mass_reads_four_keys `{Libm} (d d' : gmap string value) :
  d !! "px" = d' !! "px" → d !! "py" = d' !! "py" →
  d !! "pz" = d' !! "pz" → d !! "E" = d' !! "E" →
  calc_mass d = calc_mass d'.
Proof.
  intros Hx Hy Hz HE. rewrite !calc_mass_unfold. unfold getitem.
  by rewrite Hx, Hy, Hz, HE.
Qed.

Lemma calc_mass_reads_four_keys_witness :
  let d := make_particle (VInt 10) (VInt 20) (VInt 30) (VInt 100) in
  let d' := particle_dict (VInt 10) (VInt 20) (VInt 30) (VInt 100) in
  (d !! "px" = d' !! "px") ∧ (d !! "py" = d' !! "py") ∧
  (d !! "pz" = d' !! "pz") ∧ (d !! "E" = d' !! "E") ∧
  (d !! "mass" ≠ d' !! "mass") ∧
  calc_mass d = calc_mass d'.
Proof.
  intros d d'. do 4 (split; [reflexivity|]).
  split; [vm_compute; discriminate|].
  apply (calc_mass_reads_four_keys d d'); reflexivity.
Defined.

(** X5: the dict-based [calc_mass] returns a value only when the dict has
    all four keys, and then it is the value of [calc_mass_simple] on the
    four entries; a dict without ['px'] raises [KeyError]. *)
Theorem calc_mass_needs_four_keys `{Libm} (d : gmap string value) :
  (∀ v, calc_mass d = Ok v →
     ∃ px py pz E,
       d !! "px" = Some px ∧ d !! "py" = Some py ∧
       d !! "pz" = Some pz ∧ d !! "E" = Some E ∧
       calc_mass_simple px py pz E = Ok v) ∧
  (d !! "px" = None → calc_mass d = Raise KeyError).
Proof.
  split.
  - intros v Hv. rewrite calc_mass_unfold in Hv. unfold getitem in Hv.
    destruct (d !! "px") as [px|] eqn:Hx; [simpl in Hv|done].
    destruct (py_pow2 px) as [px2|] eqn:Hx2; [simpl in Hv|done].
    destruct (d !! "py") as [py|] eqn:Hy; [simpl in Hv|done].
    destruct (py_pow2 py) as [py2|] eqn:Hy2; [simpl in Hv|done].
    destruct (py_add px2 py2) as [s|] eqn:Hs; [simpl in Hv|done].
    destruct (d !! "pz") as [pz|] eqn:Hz; [simpl in Hv|done].
    destruct (py_pow2 pz) as [pz2|] eqn:Hz2; [simpl in Hv|done].
    destruct (py_add s pz2) as [m|] eqn:Hm; [simpl in Hv|done].
    destruct (d !! "E") as [E|] eqn:HE; [simpl in Hv|done].
    destruct (py_pow2 E) as [E2|] eqn:HE2; [simpl in Hv|done].
    exists px, py, pz, E. do 4 (split; [done|]).
    unfold calc_mass_simple. rewrite HE2, Hx2, Hy2. simpl.
    rewrite Hs. simpl. rewrite Hz2. simpl. by rewrite Hm.
  - intros Hx. rewrite calc_mass_unfold. unfold getitem. by rewrite Hx.
Qed.

Lemma calc_mass_needs_four_keys_witness :
  (calc_mass (particle_dict (VInt 10) (VInt 20) (VInt 30) (VInt 100)) =
     Ok (VFloat (sqrt 8600)) ∧
   ∃ px py pz E,
     particle_dict (VInt 10) (VInt 20) (VInt 30) (VInt 100) !! "px" = Some px ∧
     particle_dict (VInt 10) (VInt 20) (VInt 30) (VInt 100) !! "py" = Some py ∧
     particle_dict (VInt 10) (VInt 20) (VInt 30) (VInt 100) !! "pz" = Some pz ∧
     particle_dict (VInt 10) (VInt 20) (VInt 30) (VInt 100) !! "E" = Some E ∧
     calc_mass_simple px py pz E = Ok (VFloat (sqrt 8600))) ∧
  ((∅ : gmap string value) !! "px" = None ∧ calc_mass ∅ = Raise KeyError).
Proof.
  split.
  - split; [reflexivity|].
    apply (proj1 (calc_mass_needs_four_keys
                    (particle_dict (VInt 10) (VInt 20) (VInt 30) (VInt 100)))).
    reflexivity.
  - split; [reflexivity|].
    apply (proj2 (calc_mass_needs_four_keys ∅)). reflexivity.
Defined.

(** X6: for all four values, the function stored under ['mass'] by
    [make_particle], called on the dict itself ([e1['mass'](e1)]), has the
    outcome of [calc_mass] on the four entries: it returns what
    [calc_mass_simple] returns, and on numbers the outcome is the same. *)
Theorem make_particle_mass `{Libm} px py pz E :
  let e1 := make_particle px py pz E in
  (mass ← getitem e1 "mass"; call mass e1) =
    calc_mass (particle_dict px py pz E) ∧
  returned (mass ← getitem e1 "mass"; call mass e1) =
    returned (calc_mass_simple px py pz E) ∧
  (is_number px = true → is_number py = true →
   is_number pz = true → is_number E = true →
   (mass ← getitem e1 "mass"; call mass e1) = calc_mass_simple px py pz E).
Proof.
  intros e1.
  assert ((mass ← getitem e1 "mass"; call mass e1) =
          calc_mass (particle_dict px py pz E)) as ->.
  { unfold e1, make_particle, getitem at 1. simplify_map_eq. simpl.
    apply calc_mass_present; by simplify_map_eq. }
  split; [done|]. split; [apply calc_mass_dict_returned|].
  apply calc_mass_dict_number.
Qed.

Lemma make_particle_mass_witness :
  is_number (VInt 20) = true ∧ is_number (VInt 30) = true ∧
  is_number (VInt 20) = true ∧ is_number (VFloat 41.234227) = true ∧
  (let e1 := make_particle (VInt 20) (VInt 30) (VInt 20) (VFloat 41.234227) in
   mass ← getitem e1 "mass"; call mass e1) =
  calc_mass_simple (VInt 20) (VInt 30) (VInt 20) (VFloat 41.234227).
Proof.
  do 4 (split; [reflexivity|]).
  apply (proj2 (proj2 (make_particle_mass
           (VInt 20) (VInt 30) (VInt 20) (VFloat 41.234227)))); reflexivity.
Defined.

(** X7: initialising the dict of the second [make_particle] gives the dict
    of the first one: [initialize_particle(make_particle(), px, py, pz, E)]
    has the same entries as [make_particle(px, py, pz, E)]. *)
Theorem initialize_make_particle px py pz E :
  initialize_particle make_particle0 px py pz E = make_particle px py pz E.
Proof.
  apply map_eq. intros k.
  unfold initialize_particle, make_particle0, make_particle.
  rewrite !lookup_insert. repeat case_decide; by simplify_eq.
Qed.

(** X8: [initialize_particle] sets the four entries and keeps every other
    entry of the dict; initialising again replaces the four values. *)
Theorem initialize_particle_entries (d : gmap string value) px py pz E :
  initialize_particle d px py pz E !! "px" = Some px ∧
  initialize_particle d px py pz E !! "py" = Some py ∧
  initialize_particle d px py pz E !! "pz" = Some pz ∧
  initialize_particle d px py pz E !! "E" = Some E ∧
  (∀ k, k ∉ ["px"; "py"; "pz"; "E"] →
     initialize_particle d px py pz E !! k = d !! k) ∧
  (∀ px' py' pz' E',
     initialize_particle (initialize_particle d px' py' pz' E') px py pz E =
     initialize_particle d px py pz E).
Proof.
  unfold initialize_particle. do 4 (split; [by simplify_map_eq|]). split.
  - intros k Hk. rewrite !lookup_insert_ne; [done|..]; set_solver.
  - intros px' py' pz' E'. apply map_eq. intros k.
    rewrite !lookup_insert. by repeat case_decide.
Qed.

Lemma initialize_particle_entries_witness :
  ("mass" ∉ ["px"; "py"; "pz"; "E"]) ∧
  (initialize_particle make_particle0 (VInt 20) (VInt 30) (VInt 20) (VInt 50)
     !! "mass" = make_particle0 !! "mass").
Proof.
  assert ("mass" ∉ ["px"; "py"; "pz"; "E"]) as Hk
    by (apply (bool_decide_unpack _); vm_compute; exact I).
  split; [exact Hk|].
  apply (proj1 (proj2 (proj2 (proj2 (proj2 (initialize_particle_entries
           make_particle0 (VInt 20) (VInt 30) (VInt 20) (VInt 50))))))).
  exact Hk.
Defined.

(** ** Constructors and inherited methods *)

Lemma construct_BetterParticle_run h px py pz E superpower :
  construct BetterParticle [px; py; pz; E; superpower] h =
  (Ok (length h),
   h ++ [Object BetterParticle (<["superpower" := superpower]> (fields px py pz E))]).
Proof.
  unfold construct. rewrite bind_run. unfold alloc, call_init. simpl.
  unfold BetterParticle___init__.
  rewrite bind_run, bind_run, Particle_init_last. by rewrite setattr_last.
Qed.

(** X9: a class is called with its positional arguments: every class takes
    exactly four ([px], [py], [pz], [E]), [BetterParticle] four or five;
    with any other number of arguments the call raises [TypeError], and
    otherwise it returns the new instance. *)
Theorem construct_arity c args h :
  fst (construct c args h) =
  if bool_decide (length args = 4%nat ∨ (c = BetterParticle ∧ length args = 5%nat))
  then Ok (length h) else Raise TypeError.
Proof.
  destruct args as [|px [|py [|pz [|E [|sp [|x args]]]]]].
  1-4, 7: by destruct c.
  - rewrite construct_run. by destruct c.
  - destruct c; try done. by rewrite construct_BetterParticle_run.
Qed.

(** X10: [BetterParticle(px, py, pz, E, superpower)] stores the five
    values unchanged in a new instance of [BetterParticle], and without
    the fifth argument it is [BetterParticle(px, py, pz, E, 42)]. *)
Theorem BetterParticle_construct h px py pz E :
  (∀ superpower,
     fst ((p ← construct BetterParticle [px; py; pz; E; superpower];
           c ← components p; s ← getattr p "superpower"; t ← type_of p;
           mret (p, c, s, t)) h) =
     Ok (length h, (px, py, pz, E), superpower, BetterParticle)) ∧
  construct BetterParticle [px; py; pz; E] h =
  construct BetterParticle [px; py; pz; E; VInt 42] h.
Proof.
  split.
  - intros sp. rewrite bind_run, construct_BetterParticle_run.
    set (o := Object BetterParticle (<["superpower" := sp]> (fields px py pz E))).
    assert ((h ++ [o]) !! length h = Some o) as Hl by by apply list_lookup_middle.
    destruct (fields_lookup px py pz E) as (Hx & Hy & Hz & HE & _).
    rewrite bind_run, (components_intro _ _ o px py pz E Hl)
      by (unfold o; simpl; by simplify_map_eq).
    rewrite bind_run, (getattr_run _ _ _ _ Hl). unfold o at 1. simpl.
    rewrite lookup_insert_eq.
    by rewrite bind_run, (type_of_run _ _ _ Hl).
  - by rewrite construct_run, construct_BetterParticle_run.
Qed.

(** X11: [calc_mass] is inherited unchanged: on a new instance of any of
    the four classes (with the extra [superpower] or not) it has the
    outcome of [calc_mass_simple] on the four values given to the
    constructor. *)
Theorem calc_mass_inherited `{Libm} h px py pz E :
  (∀ c, fst ((p ← construct c [px; py; pz; E]; call_calc_mass p) h) =
        calc_mass_simple px py pz E) ∧
  (∀ superpower,
     fst ((p ← construct BetterParticle [px; py; pz; E; superpower];
           call_calc_mass p) h) = calc_mass_simple px py pz E).
Proof.
  assert (∀ c d,
    d = fields px py pz E ∨ (∃ sp, d = <["superpower" := sp]> (fields px py pz E)) →
    fst (call_calc_mass (length h) (h ++ [Object c d])) =
    calc_mass_simple px py pz E) as Hcall.
  { intros c d Hd.
    assert ((h ++ [Object c d]) !! length h = Some (Object c d)) as Hl
      by by apply list_lookup_middle.
    destruct (fields_lookup px py pz E) as (Hx & Hy & Hz & HE & _).
    assert (fst (components (length h) (h ++ [Object c d])) = Ok (px, py, pz, E))
      as Hc.
    { rewrite (components_intro _ _ _ px py pz E Hl); [done|..];
        destruct Hd as [-> | [sp ->]]; simpl; by simplify_map_eq. }
    unfold call_calc_mass. rewrite bind_run, (type_of_run _ _ _ Hl).
    destruct c; simpl.
    - by rewrite (SimpleParticle_calc_mass_run _ _ _ _ _ _ Hc).
    - by rewrite (Particle_calc_mass_run _ _ _ _ _ _ Hc).
    - by rewrite (Particle_calc_mass_run _ _ _ _ _ _ Hc).
    - by rewrite (Particle_calc_mass_run _ _ _ _ _ _ Hc). }
  split.
  - intros c. rewrite bind_run, construct_run. apply Hcall.
    case_decide; eauto.
  - intros sp. rewrite bind_run, construct_BetterParticle_run. apply Hcall. eauto.
Qed.

(** X12: a [SimpleParticle] has no [__add__]: with one as the left operand
    and an instance of one of the four particle classes as the right one
    (none of which has an [__radd__]), [a + b] raises [TypeError], and the
    heap is as it was. *)
Theorem SimpleParticle_add_raises h a b :
  fst (type_of a h) = Ok SimpleParticle → add a b h = (Raise TypeError, h).
Proof.
  intros Ha. unfold add. rewrite bind_run.
  destruct (type_of_cases h a) as [(o & _ & Ht) | [_ Ht]];
    rewrite Ht in Ha |- *; simpl in Ha; [|done].
  by injection Ha as ->.
Qed.

Lemma SimpleParticle_add_raises_witness :
  fst (type_of 0 heap_simple_particle) = Ok SimpleParticle ∧
  add 0 1 heap_simple_particle = (Raise TypeError, heap_simple_particle) ∧
  fst (sum_components 1 0 heap_simple_particle) =
    Ok (VInt 30, VInt 50, VInt 70, VInt 180).
Proof.
  split; [reflexivity|]. split; [|reflexivity].
  apply (SimpleParticle_add_raises heap_simple_particle 0 1). reflexivity.
Defined.

(** * Properties of the notebook on dunder methods *)

Import Advanced.

(** ** Which values can be added *)

(** X13: the outcome of [a + b] on instances of [NamedValue], [ValueLeft],
    [ValueRight] and [Value] depends on their classes only.  It is [24],
    from [__radd__] of the right operand, when the class of [b] is a
    proper subclass of the one of [a] and has a [__radd__] that [a] has
    not; else it is [42] when [a] has an [__add__]; else it is [24] when
    the classes differ and [b] has a [__radd__]; else [TypeError] is
    raised.  So [ValueLeft + Value] is [24] and [Value + ValueLeft] is
    [42]. *)
Theorem Values_add_outcome (a b : Values.instance) (out : list string) :
  let has c m := bool_decide (is_Some (Values.lookup_method c m)) in
  let ta := Values.type a in
  let tb := Values.type b in
  fst (Values.add a b out) =
    if bool_decide (ta ≠ tb ∧ ta ∈ Values.mro tb) &&
       has tb "__radd__" && negb (has ta "__radd__")
    then Returns 24
    else if has ta "__add__" then Returns 42
    else if bool_decide (ta ≠ tb) && has tb "__radd__" then Returns 24
    else Raises TypeError.
Proof. destruct a as [[] na], b as [[] nb]; reflexivity. Qed.

(** X14: [a + b] prints one line when it returns and nothing when it
    raises.  The line of [__add__] names the left operand; the line of
    [__radd__] is the text [radd called on {self.name}] as it stands in
    the source, whatever the names are. *)
Theorem Values_add_prints (a b : Values.instance) (out : list string) :
  snd (Values.add a b out) =
    out ++ match fst (Values.add a b out) with
           | Returns 42 => ["add called on " +:+ Values.name a]
           | Returns _ => ["radd called on {self.name}"]
           | Raises _ => []
           end.
Proof.
  destruct a as [[] na], b as [[] nb]; cbn; by rewrite ?app_nil_r.
Qed.

(** ** [str] and [repr] *)

(** X15: with a string as the name, [str] is [I am <name>] for the classes
    below [NameStr] and [repr] is the name for the classes below
    [NameRepr]; a class without [__str__] gives for [str] what [repr]
    gives, and a class without [__repr__] gives the [repr] of [object],
    which shows the class and the address. *)
Theorem Names_str_repr (s : string) (id : N) :
  let x c := Names.Instance c (Names.Str s) id in
  (Names.str (x Names.NameStrRepr) = Returns ("I am " +:+ s) ∧
   Names.repr (x Names.NameStrRepr) = Returns s) ∧
  (Names.str (x Names.NameStr) = Returns ("I am " +:+ s) ∧
   Names.repr (x Names.NameStr) = Returns (Names.object___repr__ (x Names.NameStr))) ∧
  (Names.str (x Names.NameRepr) = Returns s ∧
   Names.repr (x Names.NameRepr) = Returns s) ∧
  (Names.str (x Names.Name) = Returns (Names.object___repr__ (x Names.Name)) ∧
   Names.repr (x Names.Name) = Returns (Names.object___repr__ (x Names.Name))).
Proof. repeat split. Qed.

(** X16: with an [int] as the name, [__repr__] returns something that is
    not a string: [repr] raises [TypeError] on [NameRepr] and
    [NameStrRepr], and so does [str] on [NameRepr], which falls back to
    it; [str] on [NameStr] and [NameStrRepr] formats the number. *)
Theorem Names_int_name (n : Z) (id : N) :
  let x c := Names.Instance c (Names.Int n) id in
  Names.repr (x Names.NameRepr) = Raises TypeError ∧
  Names.repr (x Names.NameStrRepr) = Raises TypeError ∧
  Names.str (x Names.NameRepr) = Raises TypeError ∧
  Names.str (x Names.NameStr) = Returns ("I am " +:+ pretty n) ∧
  Names.str (x Names.NameStrRepr) = Returns ("I am " +:+ pretty n).
Proof. repeat split. Qed.

(** ** [Storage]: indexing *)

Lemma list_index_Some len i k :
  Storage.list_index len i = Some k →
  (k < len)%nat ∧ (i = Z.of_nat k ∨ i = Z.of_nat k - Z.of_nat len).
Proof.
  unfold Storage.list_index.
  destruct (Z.leb_spec 0 i), (Z.ltb_spec i (Z.of_nat len)); simpl;
    try (intros [= <-]; lia);
    destruct (Z.leb_spec (- Z.of_nat len) i), (Z.ltb_spec i 0); simpl;
    try done; intros [= <-]; lia.
Qed.

Lemma list_index_None len i :
  Storage.list_index len i = None ↔ i < - Z.of_nat len ∨ Z.of_nat len ≤ i.
Proof.
  unfold Storage.list_index.
  destruct (Z.leb_spec 0 i), (Z.ltb_spec i (Z.of_nat len)); simpl;
    try (split; [done|lia]);
    destruct (Z.leb_spec (- Z.of_nat len) i), (Z.ltb_spec i 0); simpl;
    split; try done; lia.
Qed.

Lemma Storage_getitem_run w self o i :
  Storage.heap w !! self = Some o →
  Storage.__getitem__ self i w =
  (match Storage.list_index (length (Storage.container o)) i with
   | Some k =>
       match Storage.container o !! k with
       | Some x => Returns x
       | None => Raises IndexError
       end
   | None => Raises IndexError
   end,
   Storage.World (Storage.heap w)
     (Storage.out w ++ ["getitem of " +:+ Storage.name o +:+
                        " invoked with index " +:+ pretty i])).
Proof.
  intros Ho. unfold Storage.__getitem__, Storage.load, mbind, ST_bind.
  rewrite Ho. simpl.
  destruct (Storage.list_index _ _) as [k|]; [|done].
  by destruct (Storage.container o !! k).
Qed.

Lemma Storage_setitem_run w self o i x :
  Storage.heap w !! self = Some o →
  Storage.__setitem__ self i x w =
  (match Storage.list_index (length (Storage.container o)) i with
   | Some k => Returns ()
   | None => Raises IndexError
   end,
   Storage.World
     (match Storage.list_index (length (Storage.container o)) i with
      | Some k =>
          <[self := Storage.Instance (Storage.name o)
                      (<[k := x]> (Storage.container o))]> (Storage.heap w)
      | None => Storage.heap w
      end)
     (Storage.out w ++ ["setitem of " +:+ Storage.name o +:+
                        " invoked with index " +:+ pretty i +:+
                        " and item " +:+ pretty x])).
Proof.
  intros Ho. unfold Storage.__setitem__, Storage.load, mbind, ST_bind.
  rewrite Ho. simpl.
  by destruct (Storage.list_index _ _) as [k|].
Qed.

(** X17: after [storage[i] = x], [storage[j]] returns [x] for every index
    [j] that names the same position as [i], one of them possibly counted
    from the end (as [-1] and [2] in a list of three). *)
Theorem Storage_set_get w self o (i j x : Z) k :
  Storage.heap w !! self = Some o →
  Storage.list_index (length (Storage.container o)) i = Some k →
  Storage.list_index (length (Storage.container o)) j = Some k →
  fst ((Storage.__setitem__ self i x;; Storage.__getitem__ self j) w) = Returns x.
Proof.
  intros Ho Hi Hj.
  pose proof (list_index_Some _ _ _ Hi) as [Hk _].
  unfold mbind, ST_bind. rewrite (Storage_setitem_run _ _ _ _ _ Ho), Hi.
  erewrite Storage_getitem_run;
    [|simpl; apply list_lookup_insert_eq; by eapply lookup_lt_Some].
  simpl. rewrite length_insert, Hj. by rewrite list_lookup_insert_eq.
Qed.

(** The cell [storage = Storage('one')]. *)
Lemma Storage_set_get_witness :
  let w := snd (Storage.construct "one" (Storage.World [] [])) in
  Storage.heap w !! 0%nat = Some (Storage.Instance "one" [1; 5; 4]) ∧
  Storage.list_index 3 (-1) = Some 2%nat ∧
  Storage.list_index 3 2 = Some 2%nat ∧
  fst ((Storage.__setitem__ 0 (-1) 3;; Storage.__getitem__ 0 2) w) = Returns 3.
Proof.
  intros w. do 3 (split; [reflexivity|]).
  apply (Storage_set_get w 0%nat (Storage.Instance "one" [1; 5; 4]) (-1) 2 3 2%nat);
    reflexivity.
Defined.

(** X18: with an [int] index [i] and an [int] item [x], [storage[i] = x]
    changes one position of one list: at an [int] index [j], any other
    position of that storage, and every position of every other storage,
    is read afterwards as it was before. *)
Theorem Storage_set_get_other w self other o (i j x : Z) k :
  Storage.heap w !! self = Some o →
  Storage.list_index (length (Storage.container o)) i = Some k →
  (other = self → ∃ k', Storage.list_index (length (Storage.container o)) j = Some k'
                        ∧ k' ≠ k) →
  fst ((Storage.__setitem__ self i x;; Storage.__getitem__ other j) w) =
  fst (Storage.__getitem__ other j w).
Proof.
  intros Ho Hi Hother.
  unfold mbind, ST_bind. rewrite (Storage_setitem_run _ _ _ _ _ Ho), Hi.
  destruct (decide (other = self)) as [->|Hne].
  - destruct (Hother eq_refl) as (k' & Hj & Hk').
    erewrite Storage_getitem_run;
      [|simpl; apply list_lookup_insert_eq; by eapply lookup_lt_Some].
    rewrite (Storage_getitem_run _ _ _ _ Ho). simpl.
    rewrite length_insert, Hj. by rewrite list_lookup_insert_ne.
  - destruct (Storage.heap w !! other) as [o'|] eqn:Ho'.
    + rewrite (Storage_getitem_run _ _ _ _ Ho').
      erewrite Storage_getitem_run; [done|].
      simpl. by rewrite list_lookup_insert_ne.
    + unfold Storage.__getitem__, Storage.load, mbind, ST_bind. simpl.
      by rewrite list_lookup_insert_ne, Ho' by done.
Qed.

Lemma Storage_set_get_other_witness :
  let w := snd (Storage.construct "one" (Storage.World [] [])) in
  Storage.heap w !! 0%nat = Some (Storage.Instance "one" [1; 5; 4]) ∧
  Storage.list_index 3 2 = Some 2%nat ∧
  Storage.list_index 3 (-2) = Some 1%nat ∧
  fst ((Storage.__setitem__ 0 2 3;; Storage.__getitem__ 0 (-2)) w) = Returns 5.
Proof.
  intros w. do 3 (split; [reflexivity|]).
  change (Returns 5) with (fst (Storage.__getitem__ 0 (-2) w)).
  apply (Storage_set_get_other w 0%nat 0%nat (Storage.Instance "one" [1; 5; 4])
           2 (-2) 3 2%nat); [reflexivity..|].
  intros _. exists 1%nat. split; [reflexivity | lia].
Defined.

(** X19: an index is accepted when [- len ≤ index < len] for the length
    [len] of the list, and only then: otherwise [storage[index]] and
    [storage[index] = item] raise [IndexError] and leave every list as it
    was, but the line has been printed already. *)
Theorem Storage_index_range w self o (i x : Z) :
  Storage.heap w !! self = Some o →
  let len := Z.of_nat (length (Storage.container o)) in
  ((∃ y, fst (Storage.__getitem__ self i w) = Returns y) ↔ - len ≤ i < len) ∧
  (fst (Storage.__setitem__ self i x w) = Returns () ↔ - len ≤ i < len) ∧
  (¬ (- len ≤ i < len) →
   fst (Storage.__getitem__ self i w) = Raises IndexError ∧
   fst (Storage.__setitem__ self i x w) = Raises IndexError ∧
   Storage.heap (snd (Storage.__getitem__ self i w)) = Storage.heap w ∧
   Storage.heap (snd (Storage.__setitem__ self i x w)) = Storage.heap w ∧
   length (Storage.out (snd (Storage.__getitem__ self i w))) =
     S (length (Storage.out w)) ∧
   length (Storage.out (snd (Storage.__setitem__ self i x w))) =
     S (length (Storage.out w))).
Proof.
  intros Ho len.
  rewrite (Storage_getitem_run _ _ _ _ Ho), (Storage_setitem_run _ _ _ _ _ Ho).
  simpl. rewrite !length_app. simpl.
  pose proof (list_index_None (length (Storage.container o)) i) as Hnone.
  destruct (Storage.list_index _ i) as [k|] eqn:Hi.
  - pose proof (list_index_Some _ _ _ Hi) as [Hk Hik].
    destruct (lookup_lt_is_Some_2 _ _ Hk) as [y Hy]. rewrite Hy.
    assert (- len ≤ i < len) by (unfold len; lia).
    split; [split; eauto|]. split; [done|]. done.
  - destruct Hnone as [Hnone _]. specialize (Hnone eq_refl).
    assert (¬ (- len ≤ i < len)) by (unfold len; lia).
    split; [split; [by intros [y ?]|done]|]. split; [split; done|].
    intros _. repeat split; lia.
Qed.

Lemma Storage_index_range_witness :
  let w := snd (Storage.construct "one" (Storage.World [] [])) in
  Storage.heap w !! 0%nat = Some (Storage.Instance "one" [1; 5; 4]) ∧
  ¬ (- 3 ≤ 3 < 3) ∧
  fst (Storage.__getitem__ 0 3 w) = Raises IndexError ∧
  snd (Storage.__getitem__ 0 3 w) =
    Storage.World [Storage.Instance "one" [1; 5; 4]]
                  ["getitem of one invoked with index 3"].
Proof.
  intros w. split; [reflexivity|]. split; [lia|]. split; [|reflexivity].
  apply (proj2 (proj2 (Storage_index_range w 0%nat
           (Storage.Instance "one" [1; 5; 4]) 3 0 eq_refl))).
  simpl. lia.
Defined.

(** X20: an assignment [storage[i] = x] with an [int] index and an [int]
    item, successful or not, changes neither the name of a storage nor the
    length of its list. *)
Theorem Storage_setitem_invariant w self (i x : Z) l o :
  Storage.heap w !! l = Some o →
  ∃ o', Storage.heap (snd (Storage.__setitem__ self i x w)) !! l = Some o' ∧
        Storage.name o' = Storage.name o ∧
        length (Storage.container o') = length (Storage.container o).
Proof.
  intros Hl.
  destruct (Storage.heap w !! self) as [os|] eqn:Hs.
  - rewrite (Storage_setitem_run _ _ _ _ _ Hs). simpl.
    destruct (Storage.list_index _ _) as [k|]; [|eauto].
    destruct (decide (l = self)) as [->|Hne].
    + rewrite list_lookup_insert_eq by by eapply lookup_lt_Some.
      eexists. split; [done|]. simplify_eq. simpl. by rewrite length_insert.
    + rewrite list_lookup_insert_ne by done. eauto.
  - unfold Storage.__setitem__, Storage.load, mbind, ST_bind. rewrite Hs. eauto.
Qed.

Lemma Storage_setitem_invariant_witness :
  let w := snd (Storage.construct "one" (Storage.World [] [])) in
  Storage.heap w !! 0%nat = Some (Storage.Instance "one" [1; 5; 4]) ∧
  ∃ o', Storage.heap (snd (Storage.__setitem__ 0 2 3 w)) !! 0%nat = Some o' ∧
        Storage.name o' = "one" ∧ length (Storage.container o') = 3%nat.
Proof.
  intros w. split; [reflexivity|].
  apply (Storage_setitem_invariant w 0%nat 2 3 0%nat
           (Storage.Instance "one" [1; 5; 4])). reflexivity.
Defined.

(** ** [GetAndSet]: attribute access *)

Lemma GetAndSet_getattribute_run self name out :
  String.prefix "__" name = false →
  GetAndSet.getattribute self name out =
    (Returns (if String.eqb name "values"
              then GetAndSet.List (GetAndSet.values self)
              else if bool_decide (name ∈ ["add"; "addition"])
                   then GetAndSet.Method GetAndSet.f_add self
                   else GetAndSet.NoneValue),
     if String.eqb name "hello" then out ++ ["I am 42"] else out).
Proof.
  intros Hname.
  unfold GetAndSet.getattribute, GetAndSet.namespace, GetAndSet.__getattr__.
  destruct (String.eqb_spec name "values") as [->|_]; [done|].
  destruct (String.eqb_spec name "__init__") as [->|_]; [done|].
  destruct (String.eqb_spec name "add") as [->|Hadd]; [done|].
  destruct (String.eqb_spec name "__getattr__") as [->|_]; [done|].
  case_bool_decide as Hin.
  - destruct (String.eqb_spec name "hello") as [->|_]; [|done].
    exfalso. set_solver.
  - by destruct (String.eqb_spec name "hello").
Qed.

(** X21: reading an attribute of a [GetAndSet] never fails for a name that
    does not start with two underscores: [values] is the list, [add] and
    [addition] are the method [add] bound to the instance, and every
    other name is [None], because [__getattr__] ends without a [return];
    only [hello] prints a line. *)
Theorem GetAndSet_getattribute_total self name out :
  String.prefix "__" name = false →
  ∃ v, GetAndSet.getattribute self name out =
         (Returns v, if String.eqb name "hello" then out ++ ["I am 42"] else out) ∧
       (name = "values" → v = GetAndSet.List (GetAndSet.values self)) ∧
       (name ∈ ["add"; "addition"] → v = GetAndSet.Method GetAndSet.f_add self) ∧
       (name ∉ ["values"; "add"; "addition"] → v = GetAndSet.NoneValue).
Proof.
  intros Hname. eexists. split; [by apply GetAndSet_getattribute_run|].
  destruct (String.eqb_spec name "values") as [->|Hv].
  - split; [done|]. split; intros Hin; exfalso; set_solver.
  - split; [done|].
    split; intros Hn; case_bool_decide; try done; exfalso; set_solver.
Qed.

Lemma GetAndSet_getattribute_total_witness :
  String.prefix "__" "hi" = false ∧
  GetAndSet.getattribute GetAndSet.construct "hi" [] =
    (Returns GetAndSet.NoneValue, []) ∧
  GetAndSet.getattribute GetAndSet.construct "hello" [] =
    (Returns GetAndSet.NoneValue, ["I am 42"]).
Proof.
  split; [reflexivity|].
  destruct (GetAndSet_getattribute_total GetAndSet.construct "hi" [] eq_refl)
    as (v & Hv & _).
  split; [|reflexivity]. rewrite Hv. vm_compute in Hv. by injection Hv as <-.
Defined.

(** X22: [get.addition(y)] is [get.add(y)]: both add the first item of
    [get.values] and the second item of [y.values] (an [IndexError] when a
    list is too short) and print nothing.  Calling what any other name
    without leading underscores gives raises [TypeError], as a list or
    [None] is not callable, after the line of [hello] has been printed. *)
Theorem GetAndSet_call self y name out :
  String.prefix "__" name = false →
  (f ← GetAndSet.getattribute self name; GetAndSet.call f y) out =
    if bool_decide (name ∈ ["add"; "addition"])
    then (match GetAndSet.values self, GetAndSet.values y with
          | a :: _, _ :: b :: _ => Returns (a + b)
          | _, _ => Raises IndexError
          end, out)
    else (Raises TypeError,
          if String.eqb name "hello" then out ++ ["I am 42"] else out).
Proof.
  intros Hname. unfold mbind, ST_bind.
  rewrite (GetAndSet_getattribute_run _ _ _ Hname).
  destruct (String.eqb_spec name "values") as [->|Hv]; [done|].
  case_bool_decide as Hin; [|done].
  assert ((name =? "hello")%string = false) as ->.
  { apply String.eqb_neq. intros ->. set_solver. }
  unfold GetAndSet.call, GetAndSet.add.
  by destruct (GetAndSet.values self) as [|a l], (GetAndSet.values y) as [|c [|b l']].
Qed.

Lemma GetAndSet_call_witness :
  String.prefix "__" "addition" = false ∧
  (f ← GetAndSet.getattribute GetAndSet.construct "addition";
   GetAndSet.call f GetAndSet.construct) [] = (Returns 3, []).
Proof.
  split; [reflexivity|].
  by rewrite (GetAndSet_call GetAndSet.construct GetAndSet.construct "addition" []
                eq_refl).
Defined.
